(** * dynamics_sim: the generation-transition driver of [dynamics/dynamics.py]

    A shallow embedding of [DynamicsSimulator] (dynamics/dynamics.py) and the
    properties of its apportionment, validation, payoff aggregation,
    fixation seeding and simulation loop.

    Numbers.  Python floats and numpy scalars are modelled as exact
    rationals ([Q]); Python integers as [Z].  [math.fsum] is the exact sum,
    [int] truncates toward zero, [round(x, n)] rounds the exact value to [n]
    decimals with ties to even, and [/] is true division, as in Python 3.
    Statements about equality of rationals use [Qeq] ([==]).

    Randomness.  The random generator is a state threaded through the
    samplers and the transition rule, which are parameters of the driver.

    Errors.  A Python exception is a value [Raise e] of the [result] type;
    [assert] raises [AssertionError], an index out of range [IndexError]. *)

From Stdlib Require Import ZArith QArith Qround List Lia Bool Permutation.
Import ListNotations.

(** ** Exceptions and the error monad *)

Inductive exn : Type :=
| AssertionError
| IndexError
| ZeroDivisionError
| ValueError.

Inductive result (A : Type) : Type :=
| Ok (a : A)
| Raise (e : exn).

Arguments Ok {A} a.
Arguments Raise {A} e.

Definition bind {A B : Type} (m : result A) (k : A -> result B) : result B :=
  match m with
  | Ok a => k a
  | Raise e => Raise e
  end.

Notation "x <- m ;; k" := (bind m (fun x => k))
  (at level 61, m at next level, right associativity).

Notation "' p <- m ;; k" := (bind m (fun x => let 'p := x in k))
  (at level 61, p pattern, m at next level, right associativity).

Definition py_assert (b : bool) : result unit :=
  if b then Ok tt else Raise AssertionError.

Definition is_ok {A : Type} (m : result A) : bool :=
  match m with Ok _ => true | Raise _ => false end.

(** ** Python numerics *)

(** [int(x)] on a float: truncation toward zero. *)
Definition py_int (x : Q) : Z := Z.quot (Qnum x) (Zpos (Qden x)).

(** [round(x, ndigits)]: nearest multiple of [10^-ndigits], ties to even. *)
Definition py_round (x : Q) (ndigits : nat) : Q :=
  let scale := (10 ^ Z.of_nat ndigits)%Z in
  let s := x * inject_Z scale in
  let f := Qfloor s in
  let n := match (s - inject_Z f) ?= (1 # 2) with
           | Lt => f
           | Gt => (f + 1)%Z
           | Eq => if Z.even f then f else (f + 1)%Z
           end in
  inject_Z n / inject_Z scale.

(** [math.fsum]: the exact sum of the items. *)
Definition fsum (l : list Q) : Q := fold_right Qplus 0 l.

(** [sum] of a list of Python integers. *)
Definition zsum (l : list Z) : Z := fold_right Z.add 0%Z l.

(** The precision of the decimal comparison operations. *)
Definition DECIMAL_PRECISION : nat := 5.

(** ** Python lists *)

(** [enumerate(l)]. *)
Definition enumerate {A : Type} (l : list A) : list (nat * A) :=
  combine (seq 0 (length l)) l.

(** [l[i]] for a non-negative index. *)
Definition list_get {A : Type} (l : list A) (i : nat) : result A :=
  match nth_error l i with
  | Some x => Ok x
  | None => Raise IndexError
  end.

(** The list [l] after [l[i] = x], for a non-negative index. *)
Fixpoint list_set {A : Type} (l : list A) (i : nat) (x : A) : result (list A) :=
  match l, i with
  | [], _ => Raise IndexError
  | _ :: t, O => Ok (x :: t)
  | h :: t, S j => t' <- list_set t j x ;; Ok (h :: t')
  end.

(** ** heapq on (key, index) tuples

    The heap is kept as the list of its items.  [heappop] removes and
    returns the least item in tuple order, which is all that [heapq]
    guarantees and all that [round_individuals] observes. *)

Definition entry : Type := (Q * nat)%type.

(** Tuple comparison [a < b]: first components, then second. *)
Definition entry_ltb (a b : entry) : bool :=
  match fst a ?= fst b with
  | Lt => true
  | Gt => false
  | Eq => (snd a <? snd b)%nat
  end.

Definition heapify (h : list entry) : list entry := h.

Fixpoint heappop (h : list entry) : option (entry * list entry) :=
  match h with
  | [] => None
  | x :: t =>
      match heappop t with
      | None => Some (x, [])
      | Some (m, r) => if entry_ltb m x then Some (m, x :: r) else Some (x, t)
      end
  end.

(** ** round_individuals (dynamics.py, lines 210-239) *)

(** [int_num_senders[i] += 1]. *)
Definition list_incr (l : list Z) (i : nat) : result (list Z) :=
  x <- list_get l i ;; list_set l i (x + 1)%Z.

(** The loop [while diff > 0], run [diff] times. *)
Fixpoint pop_loop (diff : nat) (thresh : list entry) (int_num_senders : list Z)
  : result (list Z) :=
  match diff with
  | O => Ok int_num_senders
  | S d =>
      match heappop thresh with
      | None => Raise IndexError
      | Some ((_, i), thresh') =>
          l <- list_incr int_num_senders i ;; pop_loop d thresh' l
      end
  end.

(** [[((x - y), i) for i, (x, y) in enumerate(zip(int_num_senders, v))]]. *)
Definition make_thresh (int_num_senders : list Z) (v : list Q) : list entry :=
  map (fun p => (inject_Z (fst (snd p)) - snd (snd p), fst p))
      (enumerate (combine int_num_senders v)).

Definition rounded_total (v : list Q) : Z :=
  py_int (py_round (fsum v) DECIMAL_PRECISION).

Definition round_individuals (unrounded_frequencies : list Q) : result (list Z) :=
  let total := rounded_total unrounded_frequencies in
  let int_num_senders := map py_int unrounded_frequencies in
  let diff := (total - zsum int_num_senders)%Z in
  l <- (if (0 <? diff)%Z
        then pop_loop (Z.to_nat diff)
               (heapify (make_thresh int_num_senders unrounded_frequencies))
               int_num_senders
        else Ok int_num_senders) ;;
  _ <- py_assert (zsum l =? total)%Z ;;
  Ok l.


(** ** Monadic iteration *)

Fixpoint mapM {A B : Type} (f : A -> result B) (l : list A) : result (list B) :=
  match l with
  | [] => Ok []
  | x :: t => y <- f x ;; ys <- mapM f t ;; Ok (y :: ys)
  end.

Fixpoint foldM {A B : Type} (f : B -> A -> result B) (l : list A) (b : B)
  : result B :=
  match l with
  | [] => Ok b
  | x :: t => b' <- f b x ;; foldM f t b'
  end.

(** [a / b] on floats. *)
Definition py_div (a b : Q) : result Q :=
  if Qeq_bool b 0 then Raise ZeroDivisionError else Ok (a / b).

(** ** The data model *)

(** What [isinstance] sees of a strategy vector: a plain list, a tuple, a
    numpy array, or some other sequence object. *)
Inductive seq_kind : Type := PyList | PyTuple | NdArray | OtherSeq.

Record pyvec : Type := { vkind : seq_kind; vdata : list Q }.

(** The state of one group: one vector per player type. *)
Definition state : Type := list pyvec.

(** [np.array(p)]. *)
Definition np_array (p : pyvec) : pyvec :=
  {| vkind := NdArray; vdata := vdata p |}.

Definition is_ndarray (p : pyvec) : bool :=
  match vkind p with NdArray => true | _ => false end.

Definition is_list_or_tuple (p : pyvec) : bool :=
  match vkind p with PyList | PyTuple => true | _ => false end.

(** The payoff-matrix collaborator, as far as this class uses it. *)
Record PayoffMatrix : Type := {
  num_player_types : nat;
  num_strats : list nat;
  get_expected_payoff : nat -> nat -> state -> Q
}.

(** The attributes set by [__init__].  The fitness transform is not part of
    the model: its default is an exponential, and nothing below calls it. *)
Record DynamicsSimulator : Type := {
  pm : PayoffMatrix;
  num_players : list Q;
  infinite_pop_size : bool;
  uniDist : bool;
  pop_size : Z;
  number_groups : Z;
  rate : Q
}.

(** ** __init__ (lines 47-66)

    [pop_size] and [number_groups] are Python integers.  The attribute
    [uniDist] is set in the finite branch only; [simulate] reads it in that
    branch only, so the field carries the argument in both. *)


(** ** validate_state (lines 98-118) *)

(** The body of the loop for one player type; returns the vector now stored
    at [s[i]]. *)
Definition validate_entry (p : pyvec) (expected : Q) (n_strats : nat)
  : result pyvec :=
  let p := if is_list_or_tuple p then np_array p else p in
  _ <- py_assert (is_ndarray p) ;;
  _ <- py_assert (Qeq_bool (fsum (vdata p)) expected) ;;
  _ <- py_assert (length (vdata p) =? n_strats)%nat ;;
  Ok p.

(** The loop over [zip(s, self.num_players, self.pm.num_strats)], which stops
    at the shortest of the three; the items of [s] beyond stay as they are. *)
Fixpoint validate_loop (s : state) (expected : list Q) (n_strats : list nat)
  : result state :=
  match s, expected, n_strats with
  | p :: s', e :: expected', n :: n_strats' =>
      p' <- validate_entry p e n ;;
      rest <- validate_loop s' expected' n_strats' ;;
      Ok (p' :: rest)
  | _, _, _ => Ok s
  end.

Definition validate_state (self : DynamicsSimulator) (s : state) : result state :=
  _ <- py_assert (length s =? num_player_types (pm self))%nat ;;
  validate_loop s (num_players self) (num_strats (pm self)).

(** ** calculate_payoffs (lines 241-252)

    The payoff query is a total function of the collaborator.  A zero total
    population is a [ZeroDivisionError], as for Python numbers. *)

Definition payoff_table (self : DynamicsSimulator) (st : state) : list (list Q) :=
  map (fun pn => map (fun s_idx => get_expected_payoff (pm self) (fst pn) s_idx st)
                     (seq 0 (snd pn)))
      (enumerate (num_strats (pm self))).

(** The terms [payoff[i][j]*state[i][j]] for [i] in [range(len(payoff))] and
    [j] in [range(len(payoff[0]))]. *)
Definition payoff_terms (payoff : list (list Q)) (st : state) : result (list (list Q)) :=
  mapM (fun i =>
          row0 <- list_get payoff 0 ;;
          mapM (fun j =>
                  row <- list_get payoff i ;;
                  pij <- list_get row j ;;
                  si <- list_get st i ;;
                  sij <- list_get (vdata si) j ;;
                  Ok (pij * sij))
               (seq 0 (length row0)))
       (seq 0 (length payoff)).

Definition calculate_payoffs (self : DynamicsSimulator) (st : state)
  : result (list (list Q) * Q) :=
  let payoff := payoff_table self st in
  terms <- payoff_terms payoff st ;;
  avg_group_payoff <- py_div (fsum (concat terms)) (fsum (concat (map vdata st))) ;;
  Ok (payoff, avg_group_payoff).

(** ** numpy values that are a scalar or a one-dimensional array *)

Inductive npval : Type :=
| Scalar (q : Q)
| Array (l : list Q).

Fixpoint zip_with (f : Q -> Q -> Q) (a b : list Q) : list Q :=
  match a, b with
  | x :: a', y :: b' => f x y :: zip_with f a' b'
  | _, _ => []
  end.

(** Elementwise [f] with numpy broadcasting. *)
Definition np_binop (f : Q -> Q -> Q) (a b : npval) : result npval :=
  match a, b with
  | Scalar x, Scalar y => Ok (Scalar (f x y))
  | Scalar x, Array l => Ok (Array (map (f x) l))
  | Array l, Scalar y => Ok (Array (map (fun x => f x y) l))
  | Array la, Array lb =>
      if (length la =? length lb)%nat then Ok (Array (zip_with f la lb))
      else match la, lb with
           | [x], _ => Ok (Array (map (f x) lb))
           | _, [y] => Ok (Array (map (fun x => f x y) la))
           | _, _ => Raise ValueError
           end
  end.

Definition np_add : npval -> npval -> result npval := np_binop Qplus.
Definition np_sub : npval -> npval -> result npval := np_binop Qminus.

(** [a / g] for a Python integer [g]; only the integer [0] met with [g = 0]
    reaches this with a zero divisor. *)
Definition np_div (a : npval) (g : Z) : result npval :=
  if (g =? 0)%Z then Raise ZeroDivisionError
  else match a with
       | Scalar x => Ok (Scalar (x / inject_Z g))
       | Array l => Ok (Array (map (fun x => x / inject_Z g) l))
       end.

(** ** Fixation-probability seeding (lines 157-177) *)

(** The position a numpy array of length [len] gives index [k]. *)
Definition np_index (len : nat) (k : Z) : result nat :=
  if ((0 <=? k) && (k <? Z.of_nat len))%Z then Ok (Z.to_nat k)
  else if ((- Z.of_nat len <=? k) && (k <? 0))%Z then Ok (Z.to_nat (Z.of_nat len + k))
  else Raise IndexError.

(** [l.insert(k, x)]. *)
Definition list_insert {A : Type} (l : list A) (k : Z) (x : A) : list A :=
  let n := Z.of_nat (length l) in
  let pos := Z.to_nat (if (k <? 0)%Z then Z.max 0 (n + k) else Z.min n k) in
  firstn pos l ++ x :: skipn pos l.

(** One turn of [for i in range(number_divisions)]; the state is
    [(count, player_dist)]. *)
Definition dist_step (players_to_distribute : Q) (number_divisions : Z)
  (acc : Z * list Q) (i : nat) : Z * list Q :=
  let (count, player_dist) := acc in
  if negb (Z.of_nat i =? number_divisions - 1)%Z then
    let div := py_int (players_to_distribute / inject_Z number_divisions) in
    ((count + div)%Z, player_dist ++ [inject_Z div])
  else
    (count, player_dist ++ [players_to_distribute - inject_Z count]).

(** [player_dist] as it stands after [player_dist.insert(strategy_indx, 0)]. *)
Definition player_dist_of (players_to_distribute : Q) (len : nat) (strategy_indx : Z)
  : list Q :=
  let number_divisions := (Z.of_nat len - 1)%Z in
  let acc := fold_left (dist_step players_to_distribute number_divisions)
               (seq 0 (Z.to_nat number_divisions)) (0%Z, []) in
  list_insert (snd acc) strategy_indx 0.

(** One turn of [for i in range(len(start_state[0][0]))]; the state is the
    vector and [players_to_distribute], which becomes an array at the first
    [players_to_distribute -= player_dist]. *)
Definition seed_step (strategy_indx : Z) (player_dist : list Q)
  (acc : list Q * npval) (i : nat) : result (list Q * npval) :=
  let (vec, players_to_distribute) := acc in
  if negb (Z.of_nat i =? strategy_indx)%Z then
    d <- list_get player_dist i ;;
    x <- list_get vec i ;;
    vec' <- list_set vec i (x + d) ;;
    ptd' <- np_sub players_to_distribute (Array player_dist) ;;
    Ok (vec', ptd')
  else Ok acc.

(** The seeding applied to the vector [start_state[0][0]]. *)
Definition seed_vector (vec : list Q) (strategy_indx : Z) : result (list Q) :=
  pos <- np_index (length vec) strategy_indx ;;
  x <- list_get vec pos ;;
  let players_to_distribute := x - 1 in
  vec1 <- list_set vec pos 1 ;;
  let player_dist := player_dist_of players_to_distribute (length vec1) strategy_indx in
  acc <- foldM (seed_step strategy_indx player_dist) (seq 0 (length vec1))
           (vec1, Scalar players_to_distribute) ;;
  Ok (fst acc).

(** Lines 157-177 on [start_state]. *)
Definition fixation_seeding (start_state : list state) (strategy_indx : Z)
  : result (list state) :=
  group0 <- list_get start_state 0 ;;
  v0 <- list_get group0 0 ;;
  vec <- seed_vector (vdata v0) strategy_indx ;;
  group0' <- list_set group0 0 {| vkind := vkind v0; vdata := vec |} ;;
  list_set start_state 0 group0'.

(** ** numpy's object arrays

    [np.array(rows, dtype=object)] on the per-group states: when all groups
    have as many vectors and all vectors the same length, the result is a
    dense array whose rows are numpy arrays; otherwise the items stay the
    objects they were. *)

Definition all_eqb (l : list nat) : bool :=
  match l with
  | [] => true
  | x :: t => forallb (Nat.eqb x) t
  end.

Definition dense (rows : list state) : bool :=
  all_eqb (map (@length pyvec) rows)
  && all_eqb (map (fun v => length (vdata v)) (concat rows)).

Definition np_object_array (rows : list state) : list state :=
  if dense rows then map (map np_array) rows else rows.

(** ** simulate (lines 120-207) *)

Section Sampling.

(** The process-wide random generator and numpy's samplers:
    [np.random.uniform(0, 1, n_s)], [np.random.multinomial(n_p, [1./n_s] * n_s)]
    and [np.random.dirichlet([1] * n_s)]. *)
Variable rng : Type.
Variable np_random_uniform : nat -> rng -> result (list Q * rng).
Variable np_random_multinomial : Q -> nat -> rng -> result (list Q * rng).
Variable np_random_dirichlet : nat -> rng -> result (list Q * rng).

Definition distribution_for_player (self : DynamicsSimulator)
  (n_p : Q) (n_s : nat) (g : rng) : result (list Q * rng) :=
  if negb (infinite_pop_size self) then
    if uniDist self then np_random_uniform n_s g
    else np_random_multinomial n_p n_s g
  else
    vg <- np_random_dirichlet n_s g ;;
    Ok (map (fun x => x * n_p) (fst vg), snd vg).

(** [[dist(n_p, n_s) for n_p, n_s in zip(self.num_players, self.pm.num_strats)]]. *)
Fixpoint draw_state (dist : Q -> nat -> rng -> result (list Q * rng))
  (n_ps : list Q) (n_ss : list nat) (g : rng) : result (state * rng) :=
  match n_ps, n_ss with
  | n_p :: n_ps', n_s :: n_ss' =>
      vg <- dist n_p n_s g ;;
      sg <- draw_state dist n_ps' n_ss' (snd vg) ;;
      Ok ({| vkind := NdArray; vdata := fst vg |} :: fst sg, snd sg)
  | _, _ => Ok ([], g)
  end.

(** [for i in range(self.number_groups): l.append([...])]. *)
Fixpoint draw_groups (dist : Q -> nat -> rng -> result (list Q * rng))
  (n_ps : list Q) (n_ss : list nat) (groups : nat) (g : rng)
  : result (list state * rng) :=
  match groups with
  | O => Ok ([], g)
  | S n =>
      sg <- draw_state dist n_ps n_ss g ;;
      rg <- draw_groups dist n_ps n_ss n (snd sg) ;;
      Ok (fst sg :: fst rg, snd rg)
  end.

(** [for i in range(n): start_state[i] = self.validate_state(start_state[i])],
    from index [i] on. *)
Fixpoint validate_groups (self : DynamicsSimulator) (start_state : list state)
  (i n : nat) : result (list state) :=
  match n with
  | O => Ok start_state
  | S n' =>
      s <- list_get start_state i ;;
      s' <- validate_state self s ;;
      start_state' <- list_set start_state i s' ;;
      validate_groups self start_state' (S i) n'
  end.

(** Lines 142-182: the start state. *)
Definition initial_state (self : DynamicsSimulator) (start_state : option (list state))
  (fixation_probability : bool) (strategy_indx : Z) (g : rng)
  : result (list state * rng) :=
  match start_state with
  | None =>
      sg <- draw_groups (distribution_for_player self) (num_players self)
              (num_strats (pm self)) (Z.to_nat (number_groups self)) g ;;
      if fixation_probability then
        _ <- py_assert (number_groups self =? 1)%Z ;;
        st <- fixation_seeding (fst sg) strategy_indx ;;
        Ok (st, snd sg)
      else Ok sg
  | Some st =>
      _ <- py_assert (Z.of_nat (length st) =? number_groups self)%Z ;;
      st' <- validate_groups self st 0 (Z.to_nat (number_groups self)) ;;
      Ok (st', g)
  end.

(** Lines 185-187: [0*np.random.uniform(0, 1, n_s)] per group and type. *)
Definition zero_payoff (n_p : Q) (n_s : nat) (g : rng) : result (list Q * rng) :=
  vg <- np_random_uniform n_s g ;;
  Ok (map (fun x => 0 * x) (fst vg), snd vg).

Definition initial_payoffs (self : DynamicsSimulator) (g : rng)
  : result (list state * rng) :=
  draw_groups zero_payoff (num_players self) (num_strats (pm self))
    (Z.to_nat (number_groups self)) g.

(** Lines 204-205: the mean over the groups of [hist[i][j][k]], with
    Python's [sum] starting from the integer 0.  The [np.array] around the
    means of one player type is the list of them. *)
Definition group_mean (self : DynamicsSimulator) (hist : list (list state))
  (k i : nat) : result npval :=
  total <- foldM (fun acc j =>
                    gen <- list_get hist i ;;
                    grp <- list_get gen j ;;
                    vec <- list_get grp k ;;
                    np_add acc (Array (vdata vec)))
             (seq 0 (Z.to_nat (number_groups self))) (Scalar 0) ;;
  np_div total (number_groups self).

Definition reduce (self : DynamicsSimulator) (num_gens : nat)
  (hist : list (list state)) : result (list (list npval)) :=
  mapM (fun k => mapM (group_mean self hist k) (seq 0 num_gens))
       (seq 0 (num_player_types (pm self))).

Section Transition.

(** The transition rule of the concrete subclass; it may draw from the
    random generator and it may raise. *)
Variable next_generation :
  list state -> bool -> Q -> rng -> result ((list state * list state) * rng).

(** Lines 194-200, [n] more generations to go. *)
Fixpoint generations (self : DynamicsSimulator) (n : nat)
  (start_state : list state) (strategies payoffs : list (list state)) (g : rng)
  : result ((list (list state) * list (list state)) * rng) :=
  match n with
  | O => Ok ((strategies, payoffs), g)
  | S n' =>
      let group_selection := (1 <? number_groups self)%Z in
      let groups := seq 0 (Z.to_nat (number_groups self)) in
      rpg <- next_generation start_state group_selection (rate self) g ;;
      let r := fst (fst rpg) in
      let p := snd (fst rpg) in
      rs <- mapM (list_get r) groups ;;
      ps <- mapM (list_get p) groups ;;
      st <- validate_groups self (np_object_array rs) 0
              (Z.to_nat (number_groups self)) ;;
      generations self n' st (strategies ++ [st])
        (payoffs ++ [np_object_array ps]) (snd rpg)
  end.

(** The body of [simulate] up to the end of the loop: the lists
    [strategies] and [payoffs]. *)
Definition run (self : DynamicsSimulator) (num_gens : nat)
  (start_state : option (list state)) (fixation_probability : bool)
  (strategy_indx : Z) (g : rng)
  : result ((list (list state) * list (list state)) * rng) :=
  sg <- initial_state self start_state fixation_probability strategy_indx g ;;
  pg <- initial_payoffs self (snd sg) ;;
  generations self num_gens (fst sg) [fst sg] [fst pg] (snd pg).

Definition simulate (self : DynamicsSimulator) (num_gens : nat)
  (start_state : option (list state)) (fixation_probability : bool)
  (strategy_indx : Z) (g : rng)
  : result ((list (list npval) * list (list npval)) * rng) :=
  h <- run self num_gens start_state fixation_probability strategy_indx g ;;
  strategies_total <- reduce self num_gens (fst (fst h)) ;;
  payoffs_total <- reduce self num_gens (snd (fst h)) ;;
  Ok ((strategies_total, payoffs_total), snd h).

End Transition.

End Sampling.

(** ** Definitions used in the statements *)


(** A payoff matrix used in the examples: payoff 1 on the first strategy
    and 0 on the others, whatever the state. *)
Definition example_pm (types : nat) (strats : list nat) : PayoffMatrix :=
  {| num_player_types := types;
     num_strats := strats;
     get_expected_payoff := fun _ s _ => if (s =? 0)%nat then 1 else 0 |}.

(** What [validate_state] leaves at [s[i]] when it accepts the vector: a
    plain list or tuple converted to a numpy array, anything else as it is. *)
Definition canonical (p : pyvec) : pyvec :=
  if is_list_or_tuple p then np_array p else p.

(** The configuration gives every player type a total and a strategy count. *)
Definition well_formed_config (self : DynamicsSimulator) : Prop :=
  length (num_players self) = num_player_types (pm self) /\
  length (num_strats (pm self)) = num_player_types (pm self).



(** The three assertions of the loop body of [validate_state], as a test. *)
Definition entry_ok (p : pyvec) (e : Q) (n : nat) : bool :=
  is_ndarray (canonical p) && Qeq_bool (fsum (vdata p)) e
  && (length (vdata p) =? n)%nat.

(** The state-weighted mean payoff: the sum over all player types and all
    of their strategies of payoff times count, over the total population. *)
Definition weighted_mean (payoff : list (list Q)) (st : state) : Q :=
  fsum (concat (map (fun pr => zip_with Qmult (fst pr) (vdata (snd pr)))
                    (combine payoff st)))
  / fsum (concat (map vdata st)).

(** A payoff matrix that pays 1 for every strategy of every player type. *)
Definition unit_pm (types : nat) (strats : list nat) : PayoffMatrix :=
  {| num_player_types := types;
     num_strats := strats;
     get_expected_payoff := fun _ _ _ => 1 |}.

Definition example_self (payoff_matrix : PayoffMatrix) (totals : list Q)
  (groups : Z) : DynamicsSimulator :=
  {| pm := payoff_matrix; num_players := totals;
     infinite_pop_size := false; uniDist := false;
     pop_size := 0; number_groups := groups; rate := 1 # 100 |}.

Definition ndarray (l : list Q) : pyvec := {| vkind := NdArray; vdata := l |}.

(** The value of [players_to_distribute] is a scalar, or an array as long as
    [player_dist]. *)
Definition ptd_shape (pd : list Q) (ptd : npval) : Prop :=
  match ptd with
  | Scalar _ => True
  | Array l => length l = length pd
  end.

Arguments distribution_for_player {rng}.
Arguments draw_state {rng}.
Arguments draw_groups {rng}.
Arguments initial_state {rng}.
Arguments zero_payoff {rng}.
Arguments initial_payoffs {rng}.
Arguments generations {rng}.
Arguments run {rng}.
Arguments simulate {rng}.

(** The state of a group carries, for every player type that has a
    configured total and a strategy count, a vector with that total. *)
Definition conserved (self : DynamicsSimulator) (grp : state) : Prop :=
  forall t vec total,
    nth_error grp t = Some vec ->
    nth_error (num_players self) t = Some total ->
    (t < length (num_strats (pm self)))%nat ->
    fsum (vdata vec) == total.

(** Samplers and a transition rule for the examples: a generator without
    state, all of a type's players on its first strategy, and a rule that
    leaves every group as it is and pays nothing. *)
Definition det_uniform (n_s : nat) (g : unit) : result (list Q * unit) :=
  Ok (repeat (1 # 2) n_s, g).

Definition det_multinomial (n_p : Q) (n_s : nat) (g : unit)
  : result (list Q * unit) :=
  match n_s with
  | O => Raise ZeroDivisionError
  | S m => Ok (n_p :: repeat 0 m, g)
  end.

Definition det_dirichlet (n_s : nat) (g : unit) : result (list Q * unit) :=
  match n_s with
  | O => Raise ValueError
  | S m => Ok (1 :: repeat 0 m, g)
  end.

Definition stay (previous : list state) (group_selection : bool) (rate0 : Q)
  (g : unit) : result ((list state * list state) * unit) :=
  Ok ((previous,
       map (map (fun v => ndarray (map (fun _ => 0) (vdata v)))) previous), g).

(** The raw value of group [j], player type [k], strategy [s] in the states
    [gen] of one generation. *)
Definition raw_value (gen : list state) (j k s : nat) : Q :=
  nth s (vdata (nth k (nth j gen []) (ndarray []))) 0.

(** The value of a scalar-or-array at position [s]. *)
Definition np_at (a : npval) (s : nat) : Q :=
  match a with
  | Scalar q => q
  | Array l => nth s l 0
  end.

Definition np_shape (len : nat) (a : npval) : Prop :=
  match a with
  | Scalar _ => True
  | Array l => length l = len
  end.

(** The state is the result of [validate_state] on some state. *)
Definition validated (self : DynamicsSimulator) (grp : state) : Prop :=
  exists s, validate_state self s = Ok grp.

(** What [calculate_payoffs] computes as the average: for every player type
    the products of payoff and count over the first [len(payoff[0])]
    strategies, over the total population. *)
Definition first_count_mean (payoff : list (list Q)) (st : state) : Q :=
  let n0 := length (hd [] payoff) in
  fsum (concat (map (fun pr => zip_with Qmult (firstn n0 (fst pr)) (vdata (snd pr)))
                    (combine payoff st)))
  / fsum (concat (map vdata st)).

(** One turn of the loop of [simulate]: from the states [st] of the groups,
    the transition rule gives [r] and [p]; the states stored next are the
    first [number_groups] items of [r] after validation, and the payoffs
    stored next the first [number_groups] items of [p]. *)
Definition follows {rng : Type}
  (next_generation :
     list state -> bool -> Q -> rng -> result ((list state * list state) * rng))
  (self : DynamicsSimulator) (st st' pay' : list state) : Prop :=
  exists g r p g' rs ps,
    next_generation st (1 <? number_groups self)%Z (rate self) g = Ok ((r, p), g') /\
    mapM (list_get r) (seq 0 (Z.to_nat (number_groups self))) = Ok rs /\
    mapM (list_get p) (seq 0 (Z.to_nat (number_groups self))) = Ok ps /\
    mapM (validate_state self) (np_object_array rs) = Ok st' /\
    pay' = np_object_array ps.

(** The transition rule of the base class (lines 80-96): [return [],[]]. *)
Definition base_next_generation {rng : Type} (previous : list state)
  (group_selection : bool) (rate0 : Q) (g : rng)
  : result ((list state * list state) * rng) :=
  Ok (([], []), g).

(** * Properties *)

Example round_individuals_ex1 :
  round_individuals [8 # 5; 13 # 10; 11 # 10] = Ok [2; 1; 1]%Z.
Proof. vm_compute. reflexivity. Qed.

Example round_individuals_ex2 :
  round_individuals [3 # 2; 3 # 2] = Ok [2; 1]%Z.
Proof. vm_compute. reflexivity. Qed.

(** The integer target is the truncation of the total rounded to five
    decimals: 0 for a total of 0.6, 1 for a total of 0.999999. *)
Example round_individuals_truncates :
  round_individuals [3 # 5] = Ok [0]%Z /\
  round_individuals [999999 # 1000000] = Ok [1]%Z.
Proof. split; vm_compute; reflexivity. Qed.

Example round_individuals_ex3 :
  round_individuals [-1 # 2; -1 # 2; 2] = Raise AssertionError.
Proof. vm_compute. reflexivity. Qed.

(** ** The error monad *)

Lemma bind_ok {A B : Type} (m : result A) (k : A -> result B) (b : B) :
  bind m k = Ok b -> exists a, m = Ok a /\ k a = Ok b.
Proof.
  destruct m as [a|e]; simpl; intro H; [exists a; auto | discriminate].
Qed.

Lemma py_assert_ok (b : bool) (u : unit) : py_assert b = Ok u -> b = true.
Proof. destruct b; simpl; [reflexivity | discriminate]. Qed.

Lemma py_assert_true (b : bool) : b = true -> py_assert b = Ok tt.
Proof. intros ->. reflexivity. Qed.

Ltac inv_bind H :=
  let a := fresh "a" in
  let Ha := fresh "Ha" in
  apply bind_ok in H; destruct H as [a [Ha H]].

Lemma mapM_length {A B : Type} (f : A -> result B) (l : list A) (r : list B) :
  mapM f l = Ok r -> length r = length l.
Proof.
  revert r; induction l as [|x t IH]; simpl; intros r H.
  - inversion H; reflexivity.
  - inv_bind H. inv_bind H. inversion H; subst. simpl. f_equal. auto.
Qed.

Lemma mapM_nth {A B : Type} (f : A -> result B) (l : list A) (r : list B) :
  mapM f l = Ok r ->
  forall i x, nth_error l i = Some x ->
  exists y, nth_error r i = Some y /\ f x = Ok y.
Proof.
  revert r; induction l as [|h t IH]; simpl; intros r H i x Hi.
  - destruct i; discriminate.
  - inv_bind H. inv_bind H. inversion H; subst.
    destruct i as [|i]; simpl in *.
    + inversion Hi; subst. eauto.
    + eauto.
Qed.

(** ** Truncation and rounding *)

Lemma py_int_nonneg (x : Q) : 0 <= x -> py_int x = Qfloor x.
Proof.
  destruct x as [n d]. unfold Qle, py_int, Qfloor. simpl. intro H.
  apply Z.quot_div_nonneg; lia.
Qed.

Lemma py_int_bounds (y : Q) (m M : Z) :
  inject_Z m <= y -> y <= inject_Z M -> (m <= py_int y <= M)%Z.
Proof.
  destruct y as [n d]. unfold Qle, py_int. simpl. intros Hm HM.
  split.
  - apply Z.quot_le_lower_bound; lia.
  - apply Z.quot_le_upper_bound; lia.
Qed.

Lemma py_int_inject_Z (m : Z) (y : Q) : y == inject_Z m -> py_int y = m.
Proof.
  intro H. assert (m <= py_int y <= m)%Z; [|lia].
  apply py_int_bounds; rewrite H; apply Qle_refl.
Qed.





(** ** Python lists *)

Lemma list_get_ok {A : Type} (l : list A) (i : nat) (x : A) :
  list_get l i = Ok x <-> nth_error l i = Some x.
Proof.
  unfold list_get. destruct (nth_error l i); split; intro H;
    inversion H; reflexivity.
Qed.

Lemma list_set_spec {A : Type} (l : list A) (i : nat) (x : A) :
  (i < length l)%nat ->
  exists l', list_set l i x = Ok l' /\ length l' = length l /\
    nth_error l' i = Some x /\
    forall j, j <> i -> nth_error l' j = nth_error l j.
Proof.
  revert i; induction l as [|h t IH]; intros i Hi; simpl in Hi; [lia|].
  destruct i as [|i]; simpl.
  - exists (x :: t). repeat split; auto.
    intros [|j] Hj; [congruence | reflexivity].
  - destruct (IH i) as [t' [E [L [N O]]]]; [lia|].
    rewrite E. simpl. exists (h :: t'). repeat split; simpl; auto.
    intros [|j] Hj; simpl; auto.
Qed.

Lemma list_set_ok {A : Type} (l l' : list A) (i : nat) (x : A) :
  list_set l i x = Ok l' ->
  (i < length l)%nat /\ length l' = length l /\ nth_error l' i = Some x /\
  forall j, j <> i -> nth_error l' j = nth_error l j.
Proof.
  intro H. assert (Hi : (i < length l)%nat).
  { revert i l' H; induction l as [|h t IH]; intros i l' H; simpl in *.
    - discriminate.
    - destruct i; [lia|]. inv_bind H. apply IH in Ha. lia. }
  split; auto. destruct (list_set_spec l i x Hi) as [l2 [E R]].
  rewrite E in H. inversion H; subst. exact R.
Qed.



Lemma nth_error_enumerate_from {A : Type} (l : list A) (start i : nat) :
  nth_error (combine (seq start (length l)) l) i =
  option_map (pair (start + i)%nat) (nth_error l i).
Proof.
  revert start i; induction l as [|h t IH]; intros start i; simpl.
  - destruct i; reflexivity.
  - destruct i as [|i]; simpl.
    + rewrite Nat.add_0_r. reflexivity.
    + rewrite IH. rewrite Nat.add_succ_r. reflexivity.
Qed.

Lemma nth_error_enumerate {A : Type} (l : list A) (i : nat) :
  nth_error (enumerate l) i = option_map (pair i) (nth_error l i).
Proof. apply (nth_error_enumerate_from l 0 i). Qed.

Lemma length_enumerate {A : Type} (l : list A) : length (enumerate l) = length l.
Proof.
  unfold enumerate. rewrite length_combine, length_seq. apply Nat.min_id.
Qed.


(** ** The order on heap items *)





(** ** heappop returns the least item *)



(** ** The heap built by round_individuals *)





(** ** The loop of round_individuals *)



(** ** round_individuals on non-negative inputs *)








(** ** Construction *)








(** ** validate_state *)

Lemma vdata_canonical (p : pyvec) : vdata (canonical p) = vdata p.
Proof. unfold canonical. destruct (is_list_or_tuple p); reflexivity. Qed.


Lemma validate_entry_eq (p : pyvec) (e : Q) (n : nat) :
  validate_entry p e n =
  if entry_ok p e n then Ok (canonical p) else Raise AssertionError.
Proof.
  unfold validate_entry, entry_ok. fold (canonical p).
  rewrite vdata_canonical.
  destruct (is_ndarray (canonical p)); simpl; auto.
  destruct (Qeq_bool (fsum (vdata p)) e); simpl; auto.
  destruct (length (vdata p) =? n)%nat; reflexivity.
Qed.






(** ** calculate_payoffs *)

Lemma mapM_ext_ok {A B : Type} (f : A -> result B) (h : A -> B) (l : list A) :
  (forall x, In x l -> f x = Ok (h x)) -> mapM f l = Ok (map h l).
Proof.
  induction l as [|x l IH]; intro H; simpl; [reflexivity|].
  rewrite (H x) by (left; reflexivity). simpl.
  rewrite IH by (intros y Hy; apply H; right; exact Hy). reflexivity.
Qed.

Lemma map_seq_nth2 {A B C : Type} (h : A -> B -> C) (da : A) (db : B) (a : list A) :
  forall b : list B,
    length a = length b ->
    map (fun i => h (nth i a da) (nth i b db)) (seq 0 (length a))
    = map (fun pr => h (fst pr) (snd pr)) (combine a b).
Proof.
  induction a as [|x a IH]; intros [|y b] L; simpl in *; try discriminate; auto.
  f_equal. rewrite <- seq_shift, map_map. apply IH. lia.
Qed.

Lemma zip_with_combine (f : Q -> Q -> Q) (a : list Q) :
  forall b, zip_with f a b = map (fun pr => f (fst pr) (snd pr)) (combine a b).
Proof.
  induction a as [|x a IH]; intros [|y b]; simpl; auto. f_equal. apply IH.
Qed.

Lemma payoff_table_rows (self : DynamicsSimulator) (st : state) (n : nat) :
  Forall (fun m => m = n) (num_strats (pm self)) ->
  length (payoff_table self st) = length (num_strats (pm self)) /\
  Forall (fun row => length row = n) (payoff_table self st).
Proof.
  intro H. unfold payoff_table. split.
  - rewrite length_map. apply length_enumerate.
  - apply Forall_map. apply Forall_forall. intros [i m] Hin.
    rewrite length_map, length_seq. simpl.
    unfold enumerate in Hin. apply in_combine_r in Hin.
    rewrite Forall_forall in H. apply H. exact Hin.
Qed.

Lemma payoff_terms_uniform (payoff : list (list Q)) (st : state) (n : nat) :
  Forall (fun row => length row = n) payoff ->
  Forall (fun v => length (vdata v) = n) st ->
  length payoff = length st ->
  payoff_terms payoff st
  = Ok (map (fun pr => zip_with Qmult (fst pr) (vdata (snd pr))) (combine payoff st)).
Proof.
  intros Hp Hs L. unfold payoff_terms.
  rewrite <- (map_seq_nth2 (fun row v => zip_with Qmult row (vdata v)) [] (ndarray [])
                payoff st L).
  apply mapM_ext_ok. intros i Hi. apply in_seq in Hi.
  destruct payoff as [|row0 rest] eqn:Ep; [simpl in Hi; lia|].
  rewrite <- Ep in *. assert (L0 : length row0 = n).
  { rewrite Forall_forall in Hp. apply Hp. rewrite Ep. left. reflexivity. }
  assert (G0 : list_get payoff 0 = Ok row0) by (rewrite Ep; reflexivity).
  rewrite G0. cbn [bind]. rewrite L0.
  destruct (nth_error payoff i) as [row|] eqn:Er.
  2:{ apply nth_error_None in Er. lia. }
  destruct (nth_error st i) as [v|] eqn:Ev.
  2:{ apply nth_error_None in Ev. lia. }
  assert (Lr : length row = n).
  { rewrite Forall_forall in Hp. apply Hp. eapply nth_error_In; eauto. }
  assert (Lv : length (vdata v) = n).
  { rewrite Forall_forall in Hs. apply Hs. eapply nth_error_In; eauto. }
  rewrite (nth_error_nth _ _ [] Er), (nth_error_nth _ _ (ndarray []) Ev).
  rewrite zip_with_combine.
  rewrite <- (map_seq_nth2 Qmult 0 0 row (vdata v)) by lia.
  rewrite Lr. apply mapM_ext_ok. intros j Hj. apply in_seq in Hj.
  unfold list_get. rewrite Er. cbn [bind].
  destruct (nth_error row j) as [pij|] eqn:E1.
  2:{ apply nth_error_None in E1. lia. }
  cbn [bind]. rewrite Ev. cbn [bind].
  destruct (nth_error (vdata v) j) as [sij|] eqn:E2.
  2:{ apply nth_error_None in E2. lia. }
  cbn [bind]. rewrite (nth_error_nth _ _ 0 E1), (nth_error_nth _ _ 0 E2).
  reflexivity.
Qed.

(** Where all player types have the same number of strategies, the state
    has one vector of that length per player type and the population is not
    empty, [calculate_payoffs] returns the state-weighted mean payoff. *)
Lemma calculate_payoffs_uniform (self : DynamicsSimulator) (st : state) (n : nat) :
  Forall (fun m => m = n) (num_strats (pm self)) ->
  length st = length (num_strats (pm self)) ->
  Forall (fun v => length (vdata v) = n) st ->
  ~ fsum (concat (map vdata st)) == 0 ->
  calculate_payoffs self st
  = Ok (payoff_table self st, weighted_mean (payoff_table self st) st).
Proof.
  intros Hn Ls Hs Hz. unfold calculate_payoffs.
  destruct (payoff_table_rows self st n Hn) as [Lp Hp].
  rewrite (payoff_terms_uniform _ st n Hp Hs) by lia. cbn [bind].
  unfold py_div.
  destruct (Qeq_bool (fsum (concat (map vdata st))) 0) eqn:E.
  - exfalso. apply Hz. apply Qeq_bool_eq. exact E.
  - reflexivity.
Qed.

(** C5.  With one strategy for the first player type and two for the
    second, [calculate_payoffs] leaves the second strategy of the second
    type out of the sum: every payoff is 1 and the state is
    [[[1], [1, 1]]], so the state-weighted mean is 1, but the value returned
    is 2/3.  With the strategy counts the other way round the function
    raises [IndexError]. *)
Theorem calculate_payoffs_first_row_length :
  let self := example_self (unit_pm 2 [1; 2]%nat) [1; 2] 1 in
  let st := [ndarray [1]; ndarray [1; 1]] in
  calculate_payoffs self st = Ok ([[1]; [1; 1]], 2 # 3) /\
  weighted_mean [[1]; [1; 1]] st == 1 /\
  ~ 2 # 3 == weighted_mean [[1]; [1; 1]] st /\
  calculate_payoffs (example_self (unit_pm 2 [2; 1]%nat) [2; 1] 1)
    [ndarray [1; 1]; ndarray [1]] = Raise IndexError.
Proof.
  intros self st. repeat split; try (vm_compute; reflexivity).
  vm_compute. discriminate.
Qed.

(** ** Sums of rational vectors *)

Lemma fsum_app (a b : list Q) : fsum (a ++ b) == fsum a + fsum b.
Proof.
  induction a as [|x a IH]; simpl.
  - ring.
  - fold (fsum (a ++ b)). fold (fsum a). rewrite IH. ring.
Qed.

Lemma fsum_list_set (l l' : list Q) (i : nat) (x y : Q) :
  nth_error l i = Some x -> list_set l i y = Ok l' ->
  fsum l' == fsum l - x + y.
Proof.
  revert i l'; induction l as [|h t IH]; intros i l' Hx Hs.
  - destruct i; discriminate.
  - destruct i as [|i]; simpl in *.
    + inversion Hx; inversion Hs; subst. simpl. fold (fsum t). ring.
    + inv_bind Hs. inversion Hs; subst. simpl. fold (fsum a). fold (fsum t).
      rewrite (IH _ _ Hx Ha). ring.
Qed.

Lemma fsum_pointwise (l' : list Q) :
  forall l d : list Q,
    length l = length l' -> length d = length l' ->
    (forall i, (i < length l')%nat -> nth i l' 0 == nth i l 0 + nth i d 0) ->
    fsum l' == fsum l + fsum d.
Proof.
  induction l' as [|x' t' IH]; intros l d Ll Ld H.
  - destruct l; [|discriminate]. destruct d; [|discriminate]. simpl. ring.
  - destruct l as [|x t]; [discriminate|]. destruct d as [|y u]; [discriminate|].
    simpl in *. fold (fsum t'). fold (fsum t). fold (fsum u).
    rewrite (IH t u); try lia.
    + rewrite (H 0%nat) by lia. ring.
    + intros i Hi. apply (H (S i)). lia.
Qed.

Lemma list_set_nth {A : Type} (l l' : list A) (i : nat) (x : A) :
  list_set l i x = Ok l' ->
  forall j d, nth j l' d = if (j =? i)%nat then x else nth j l d.
Proof.
  intros H j d. apply list_set_ok in H. destruct H as [Hi [L [N O]]].
  destruct (Nat.eqb_spec j i) as [E|E].
  - subst j. apply nth_error_nth. exact N.
  - specialize (O j E). destruct (nth_error l j) as [y|] eqn:Ey.
    + rewrite (nth_error_nth _ _ _ O), (nth_error_nth _ _ _ Ey). reflexivity.
    + rewrite !nth_overflow; auto; apply nth_error_None; auto.
Qed.

(** ** Fixation-probability seeding *)

Lemma dist_fold_prefix (ptd : Q) (nd : Z) (m : nat) :
  (Z.of_nat m <= nd - 1)%Z ->
  exists count pd,
    fold_left (dist_step ptd nd) (seq 0 m) (0%Z, []) = (count, pd) /\
    length pd = m /\ fsum pd == inject_Z count.
Proof.
  induction m as [|m IH]; intro Hm.
  - exists 0%Z, []. simpl. repeat split; reflexivity.
  - destruct IH as [count [pd [E [L Hs]]]]; [lia|].
    rewrite seq_S, fold_left_app, E. simpl.
    assert (N : (Z.of_nat m =? nd - 1)%Z = false) by (apply Z.eqb_neq; lia).
    rewrite N. simpl.
    eexists. eexists. split; [reflexivity|]. split.
    + rewrite length_app. simpl. lia.
    + rewrite fsum_app, Hs, inject_Z_plus. simpl. ring.
Qed.

Lemma dist_fold_total (ptd : Q) (nd : Z) :
  (1 <= nd)%Z ->
  exists count pd,
    fold_left (dist_step ptd nd) (seq 0 (Z.to_nat nd)) (0%Z, []) = (count, pd) /\
    length pd = Z.to_nat nd /\ fsum pd == ptd.
Proof.
  intro H.
  destruct (dist_fold_prefix ptd nd (Z.to_nat nd - 1)) as [count [pd [E [L Hs]]]]; [lia|].
  assert (X : seq 0 (Z.to_nat nd) = seq 0 (Z.to_nat nd - 1) ++ [(Z.to_nat nd - 1)%nat]).
  { change ((Z.to_nat nd - 1)%nat) with (0 + (Z.to_nat nd - 1))%nat at 2.
    rewrite <- seq_S. f_equal. lia. }
  rewrite X, fold_left_app, E. simpl.
  assert (N : (Z.of_nat (Z.to_nat nd - 1) =? nd - 1)%Z = true) by (apply Z.eqb_eq; lia).
  rewrite N. simpl.
  eexists. eexists. split; [reflexivity|]. split.
  - rewrite length_app. simpl. lia.
  - rewrite fsum_app, Hs. simpl. ring.
Qed.

Lemma list_insert_spec (l : list Q) (k : Z) (x : Q) :
  (0 <= k <= Z.of_nat (length l))%Z ->
  length (list_insert l k x) = S (length l) /\
  nth (Z.to_nat k) (list_insert l k x) 0 = x /\
  fsum (list_insert l k x) == fsum l + x.
Proof.
  intro H. unfold list_insert.
  assert (N : (k <? 0)%Z = false) by (apply Z.ltb_ge; lia).
  rewrite N. rewrite Z.min_r by lia.
  assert (Lf : length (firstn (Z.to_nat k) l) = Z.to_nat k).
  { rewrite length_firstn. lia. }
  repeat split.
  - rewrite length_app. simpl. rewrite Lf, length_skipn. lia.
  - rewrite app_nth2 by lia. rewrite Lf, Nat.sub_diag. reflexivity.
  - rewrite fsum_app. simpl. fold (fsum (skipn (Z.to_nat k) l)).
    rewrite <- (firstn_skipn (Z.to_nat k) l) at 3. rewrite fsum_app. ring.
Qed.

Lemma player_dist_of_spec (ptd : Q) (len : nat) (k : Z) :
  (2 <= len)%nat -> (0 <= k < Z.of_nat len)%Z ->
  length (player_dist_of ptd len k) = len /\
  nth (Z.to_nat k) (player_dist_of ptd len k) 0 = 0 /\
  fsum (player_dist_of ptd len k) == ptd.
Proof.
  intros Hl Hk. unfold player_dist_of.
  destruct (dist_fold_total ptd (Z.of_nat len - 1)) as [count [pd [E [L Hs]]]]; [lia|].
  rewrite E. simpl.
  destruct (list_insert_spec pd k 0) as [A [B C]]; [lia|].
  repeat split; auto.
  - lia.
  - rewrite C, Hs. ring.
Qed.

Lemma length_zip_with (f : Q -> Q -> Q) (a b : list Q) :
  length (zip_with f a b) = Nat.min (length a) (length b).
Proof.
  revert b; induction a as [|x a IH]; intros [|y b]; simpl; auto.
Qed.

Lemma np_sub_shape (pd : list Q) (ptd : npval) :
  ptd_shape pd ptd ->
  exists ptd', np_sub ptd (Array pd) = Ok ptd' /\ ptd_shape pd ptd'.
Proof.
  destruct ptd as [q|l]; simpl; intro H.
  - eexists. split; [reflexivity|]. simpl. apply length_map.
  - unfold np_sub. simpl. rewrite H, Nat.eqb_refl.
    eexists. split; [reflexivity|]. simpl.
    rewrite length_zip_with, H. apply Nat.min_id.
Qed.

Lemma seed_loop (k : Z) (pd : list Q) (m : nat) :
  forall (a : nat) (vec : list Q) (ptd : npval),
    length pd = length vec -> (a + m <= length vec)%nat -> ptd_shape pd ptd ->
    exists vec' ptd',
      foldM (seed_step k pd) (seq a m) (vec, ptd) = Ok (vec', ptd') /\
      length vec' = length vec /\
      forall i, nth i vec' 0 =
                if (a <=? i)%nat && (i <? a + m)%nat && negb (Z.of_nat i =? k)%Z
                then nth i vec 0 + nth i pd 0 else nth i vec 0.
Proof.
  induction m as [|m IH]; intros a vec ptd Lp Ha Hs.
  - exists vec, ptd. simpl. repeat split; auto.
    intro i.
    destruct (Nat.leb_spec a i), (Nat.ltb_spec i (a + 0)); simpl;
      try reflexivity; lia.
  - cbn [seq foldM]. unfold seed_step at 1.
    destruct (Z.of_nat a =? k)%Z eqn:Ek; cbn [negb bind].
    + apply Z.eqb_eq in Ek.
      destruct (IH (S a) vec ptd) as [vec' [ptd' [E [L N]]]]; auto; try lia.
      exists vec', ptd'. repeat split; auto.
      intro i. rewrite N.
      destruct (Nat.leb_spec (S a) i), (Nat.ltb_spec i (S a + m)),
        (Nat.leb_spec a i), (Nat.ltb_spec i (a + S m)),
        (Z.eqb_spec (Z.of_nat i) k); simpl; try reflexivity; lia.
    + apply Z.eqb_neq in Ek.
      destruct (nth_error pd a) as [d|] eqn:Ed.
      2:{ apply nth_error_None in Ed. lia. }
      destruct (nth_error vec a) as [x|] eqn:Ex.
      2:{ apply nth_error_None in Ex. lia. }
      unfold list_get. rewrite Ed, Ex. cbn [bind].
      destruct (list_set_spec vec a (x + d)) as [vec1 [E1 [L1 _]]]; [lia|].
      rewrite E1. cbn [bind].
      destruct (np_sub_shape pd ptd Hs) as [ptd1 [E2 S2]].
      rewrite E2. cbn [bind].
      destruct (IH (S a) vec1 ptd1) as [vec' [ptd' [E [L N]]]]; auto; try lia.
      exists vec', ptd'. repeat split; auto; try lia.
      intro i. rewrite N. rewrite !(list_set_nth _ _ _ _ E1).
      rewrite <- (nth_error_nth _ _ 0 Ex), <- (nth_error_nth _ _ 0 Ed).
      destruct (Nat.eqb_spec i a) as [Hia|Hia].
      * subst i.
        destruct (Nat.leb_spec (S a) a), (Nat.ltb_spec a (S a + m)),
          (Nat.leb_spec a a), (Nat.ltb_spec a (a + S m)),
          (Z.eqb_spec (Z.of_nat a) k); simpl; try reflexivity; lia.
      * destruct (Nat.leb_spec (S a) i), (Nat.ltb_spec i (S a + m)),
          (Nat.leb_spec a i), (Nat.ltb_spec i (a + S m)),
          (Z.eqb_spec (Z.of_nat i) k); simpl; try reflexivity; lia.
Qed.

Lemma np_index_in_range (len : nat) (k : Z) :
  (0 <= k < Z.of_nat len)%Z -> np_index len k = Ok (Z.to_nat k).
Proof.
  intro H. unfold np_index.
  assert (A : ((0 <=? k) && (k <? Z.of_nat len))%Z = true).
  { apply andb_true_iff. split; [apply Z.leb_le | apply Z.ltb_lt]; lia. }
  rewrite A. reflexivity.
Qed.

Lemma np_index_out_of_range (len : nat) (k : Z) :
  (Z.of_nat len <= k \/ k < - Z.of_nat len)%Z -> np_index len k = Raise IndexError.
Proof.
  intro H. unfold np_index.
  assert (A : ((0 <=? k) && (k <? Z.of_nat len))%Z = false).
  { apply andb_false_iff. destruct H; [right; apply Z.ltb_ge | left; apply Z.leb_gt]; lia. }
  assert (B : ((- Z.of_nat len <=? k) && (k <? 0))%Z = false).
  { apply andb_false_iff. destruct H; [right; apply Z.ltb_ge | left; apply Z.leb_gt]; lia. }
  rewrite A, B. reflexivity.
Qed.

Lemma seed_vector_spec (vec : list Q) (k : Z) :
  (2 <= length vec)%nat -> (0 <= k < Z.of_nat (length vec))%Z ->
  let pos := Z.to_nat k in
  let player_dist := player_dist_of (nth pos vec 0 - 1) (length vec) k in
  exists vec',
    seed_vector vec k = Ok vec' /\
    length vec' = length vec /\
    nth pos vec' 0 = 1 /\
    nth pos player_dist 0 = 0 /\
    (forall i, i <> pos -> nth i vec' 0 = nth i vec 0 + nth i player_dist 0) /\
    fsum player_dist == nth pos vec 0 - 1 /\
    fsum vec' == fsum vec.
Proof.
  intros Hl Hk pos player_dist. unfold seed_vector.
  rewrite (np_index_in_range _ _ Hk). cbn [bind]. fold pos.
  assert (Hpos : (pos < length vec)%nat) by (unfold pos; lia).
  destruct (nth_error vec pos) as [x|] eqn:Ex.
  2:{ apply nth_error_None in Ex. lia. }
  assert (Nx : nth pos vec 0 = x) by (apply nth_error_nth; auto).
  unfold list_get. rewrite Ex. cbn [bind].
  destruct (list_set_spec vec pos 1 Hpos) as [vec1 [E1 [L1 _]]].
  rewrite E1. cbn [bind]. rewrite L1.
  unfold player_dist. rewrite Nx.
  set (pd := player_dist_of (x - 1) (length vec) k).
  destruct (player_dist_of_spec (x - 1) (length vec) k Hl Hk) as [Lpd [Zpd Spd]].
  fold pd in Lpd, Zpd, Spd. fold pos in Zpd.
  destruct (seed_loop k pd (length vec) 0 vec1 (Scalar (x - 1)))
    as [vec' [ptd' [E [L N]]]]; try lia; [exact I|].
  rewrite E. cbn [bind fst].
  assert (Nk : nth pos vec' 0 = 1).
  { rewrite N. rewrite (list_set_nth _ _ _ _ E1), Nat.eqb_refl.
    assert (K : (Z.of_nat pos =? k)%Z = true) by (apply Z.eqb_eq; unfold pos; lia).
    rewrite K. rewrite andb_false_r. reflexivity. }
  assert (No : forall i, i <> pos -> nth i vec' 0 = nth i vec 0 + nth i pd 0).
  { intros i Hi. rewrite N. rewrite (list_set_nth _ _ _ _ E1).
    assert (K : (i =? pos)%nat = false) by (apply Nat.eqb_neq; auto).
    rewrite K.
    destruct (Nat.ltb_spec i (0 + length vec)) as [Hlt|Hge].
    - assert (K2 : (Z.of_nat i =? k)%Z = false) by (apply Z.eqb_neq; unfold pos in Hi; lia).
      rewrite K2. reflexivity.
    - rewrite andb_false_r. simpl.
      rewrite (nth_overflow pd) by lia. rewrite (nth_overflow vec) by lia.
      reflexivity. }
  exists vec'. repeat split; auto.
  - lia.
  - assert (S1 : fsum vec' == fsum vec1 + fsum pd).
    { apply fsum_pointwise; try lia.
      intros i Hi. destruct (Nat.eq_dec i pos) as [->|Hne].
      - rewrite Nk, Zpd, (list_set_nth _ _ _ _ E1), Nat.eqb_refl. ring.
      - rewrite (No i Hne), (list_set_nth _ _ _ _ E1).
        assert (K : (i =? pos)%nat = false) by (apply Nat.eqb_neq; auto).
        rewrite K. reflexivity. }
    rewrite S1, Spd, (fsum_list_set _ _ _ _ _ Ex E1). ring.
Qed.

(** C4, as amended.  When the first player type has at least two strategies
    and [0 <= k < number of strategies], the seeding succeeds and changes
    only the first vector of the first group: its value at [k] is exactly 1,
    every other index [i] gains [player_dist[i]], the entry of [player_dist]
    at [k] is 0, [player_dist] sums to the individuals taken from [k], and
    the total of the vector is what it was before. *)
Theorem fixation_seeding_exact (v0 : pyvec) (rest : state)
  (others : list state) (k : Z) :
  (2 <= length (vdata v0))%nat ->
  (0 <= k < Z.of_nat (length (vdata v0)))%Z ->
  let vec := vdata v0 in
  let pos := Z.to_nat k in
  let player_dist := player_dist_of (nth pos vec 0 - 1) (length vec) k in
  exists vec',
    fixation_seeding ((v0 :: rest) :: others) k
    = Ok (({| vkind := vkind v0; vdata := vec' |} :: rest) :: others) /\
    length vec' = length vec /\
    nth pos vec' 0 = 1 /\
    nth pos player_dist 0 = 0 /\
    (forall i, i <> pos -> nth i vec' 0 = nth i vec 0 + nth i player_dist 0) /\
    fsum player_dist == nth pos vec 0 - 1 /\
    fsum vec' == fsum vec.
Proof.
  intros Hl Hk vec pos player_dist.
  destruct (seed_vector_spec vec k Hl Hk) as [vec' [E R]].
  exists vec'. split; [|exact R].
  unfold fixation_seeding. simpl. fold vec. rewrite E. reflexivity.
Qed.

Lemma fixation_seeding_exact_witness :
  (2 <= length (vdata (ndarray [3; 0; 4]%Q)))%nat /\ (0 <= 1 < 3)%Z /\
  exists vec',
    fixation_seeding [[ndarray [3; 0; 4]; ndarray [2; 2]]] 1
    = Ok [[ndarray vec'; ndarray [2; 2]]] /\
    nth 1 vec' 0 = 1 /\ fsum vec' == fsum [3; 0; 4].
Proof.
  assert (Hl : (2 <= length (vdata (ndarray [3; 0; 4]%Q)))%nat) by (simpl; lia).
  assert (Hk : (0 <= 1 < Z.of_nat (length (vdata (ndarray [3; 0; 4]%Q))))%Z)
    by (simpl; lia).
  split; [exact Hl|]. split; [lia|].
  destruct (fixation_seeding_exact (ndarray [3; 0; 4]) [ndarray [2; 2]] [] 1 Hl Hk)
    as [vec' [E [_ [N [_ [_ [_ S]]]]]]].
  exists vec'. split; [exact E|]. split; [exact N | exact S].
Defined.

(** C4 as stated fails when the first player type has a single strategy:
    there is no other strategy to take the remaining individuals, and the
    total drops from 5 to 1. *)
Lemma fixation_seeding_single_strategy :
  fixation_seeding [[ndarray [5]]] 0 = Ok [[ndarray [1]]] /\
  ~ fsum [1] == fsum [5].
Proof.
  split; [vm_compute; reflexivity|]. vm_compute. discriminate.
Qed.

Example fixation_seeding_ex1 :
  fixation_seeding [[ndarray [3; 0; 4]]] 1 = Ok [[ndarray [3 + 0; 1; 4 + -1]]].
Proof. vm_compute. reflexivity. Qed.

Example fixation_seeding_negative_index :
  fixation_seeding [[ndarray [3; 2; 4]]] (-1) = Ok [[ndarray [4; 2; 3]]].
Proof. vm_compute. reflexivity. Qed.

(** ** What validation establishes *)

Lemma validate_loop_sound (s : state) :
  forall (es : list Q) (ns : list nat) (s' : state),
    validate_loop s es ns = Ok s' ->
    length s' = length s /\
    forall t p e n,
      nth_error s' t = Some p -> nth_error es t = Some e ->
      nth_error ns t = Some n ->
      vkind p = NdArray /\ fsum (vdata p) == e /\ length (vdata p) = n.
Proof.
  induction s as [|p0 s IH]; intros es ns s' H.
  - simpl in H. inversion H; subst. split; auto.
    intros [|t] ? ? ? C; discriminate.
  - destruct es as [|e0 es].
    { simpl in H. inversion H; subst. split; auto.
      intros [|t] ? ? ? _ C; discriminate. }
    destruct ns as [|n0 ns].
    { simpl in H. inversion H; subst. split; auto.
      intros [|t] ? ? ? _ _ C; discriminate. }
    cbn [validate_loop] in H. rewrite validate_entry_eq in H.
    destruct (entry_ok p0 e0 n0) eqn:E; [|discriminate].
    cbn [bind] in H. apply bind_ok in H. destruct H as [rest [Hr H]].
    inversion H; subst s'. clear H.
    destruct (IH _ _ _ Hr) as [L A]. split; [simpl; lia|].
    intros [|t] p e n H1 H2 H3; simpl in H1, H2, H3.
    + inversion H1; inversion H2; inversion H3; subst.
      unfold entry_ok in E. apply andb_true_iff in E. destruct E as [E E3].
      apply andb_true_iff in E. destruct E as [E1 E2].
      rewrite vdata_canonical. repeat split.
      * unfold is_ndarray in E1. destruct (vkind (canonical p0)); congruence.
      * apply Qeq_bool_eq; auto.
      * apply Nat.eqb_eq; auto.
    + eapply A; eauto.
Qed.

Lemma validate_state_conserved (self : DynamicsSimulator) (s s' : state) :
  validate_state self s = Ok s' -> conserved self s'.
Proof.
  unfold validate_state. intro H. apply bind_ok in H. destruct H as [u [_ H]].
  apply validate_loop_sound in H. destruct H as [_ A].
  intros t vec total H1 H2 H3.
  destruct (nth_error (num_strats (pm self)) t) as [n|] eqn:En.
  - destruct (A t vec total n H1 H2 En) as [_ [S _]]. exact S.
  - apply nth_error_None in En. lia.
Qed.

Lemma validate_groups_spec (self : DynamicsSimulator) (n : nat) :
  forall (i : nat) (st st' : list state),
    validate_groups self st i n = Ok st' ->
    length st' = length st /\
    (forall j, (i <= j < i + n)%nat ->
       exists s s', nth_error st j = Some s /\ validate_state self s = Ok s' /\
                    nth_error st' j = Some s') /\
    (forall j, ~ (i <= j < i + n)%nat -> nth_error st' j = nth_error st j).
Proof.
  induction n as [|n IH]; intros i st st' H.
  - simpl in H. inversion H; subst. repeat split; auto. intros j Hj. lia.
  - cbn [validate_groups] in H.
    apply bind_ok in H. destruct H as [s [Hs H]].
    apply bind_ok in H. destruct H as [s' [Hv H]].
    apply bind_ok in H. destruct H as [st1 [H1 H]].
    apply list_get_ok in Hs. apply list_set_ok in H1.
    destruct H1 as [Hi [L1 [N1 O1]]].
    destruct (IH _ _ _ H) as [L [A B]].
    split; [lia|]. split.
    + intros j Hj. destruct (Nat.eq_dec j i) as [->|Hne].
      * exists s, s'. repeat split; auto. rewrite B by lia. exact N1.
      * destruct (A j) as [x [x' [X1 [X2 X3]]]]; [lia|].
        exists x, x'. repeat split; auto. rewrite <- O1; auto.
    + intros j Hj. rewrite B by lia. apply O1. lia.
Qed.

Lemma validate_groups_all (self : DynamicsSimulator) (st st' : list state) :
  validate_groups self st 0 (length st) = Ok st' ->
  length st' = length st /\ Forall (conserved self) st'.
Proof.
  intro H. apply validate_groups_spec in H. destruct H as [L [A _]].
  split; auto. apply Forall_forall. intros grp Hg.
  apply In_nth_error in Hg. destruct Hg as [j Hj].
  assert (Hlt : (j < length st')%nat) by (apply nth_error_Some; congruence).
  destruct (A j) as [s [s' [_ [V N]]]]; [lia|].
  rewrite Hj in N. inversion N; subst.
  eapply validate_state_conserved; eauto.
Qed.

Lemma length_np_object_array (rows : list state) :
  length (np_object_array rows) = length rows.
Proof.
  unfold np_object_array. destruct (dense rows); auto. apply length_map.
Qed.

Lemma mapM_seq_length {B : Type} (f : nat -> result B) (a n : nat) (r : list B) :
  mapM f (seq a n) = Ok r -> length r = n.
Proof.
  intro H. apply mapM_length in H. rewrite length_seq in H. exact H.
Qed.

(** ** The mean over the groups *)

Lemma nth_zip_with (f : Q -> Q -> Q) (a : list Q) :
  forall (b : list Q) (s : nat),
    (s < length a)%nat -> (s < length b)%nat ->
    nth s (zip_with f a b) 0 = f (nth s a 0) (nth s b 0).
Proof.
  induction a as [|x a IH]; intros [|y b] s Ha Hb; simpl in *; try lia.
  destruct s as [|s]; [reflexivity|]. apply IH; lia.
Qed.

Lemma nth_map_in_range (f : Q -> Q) (l : list Q) (s : nat) :
  (s < length l)%nat -> nth s (map f l) 0 = f (nth s l 0).
Proof.
  intro H. rewrite (nth_indep _ 0 (f 0)) by (rewrite length_map; exact H).
  apply map_nth.
Qed.

Lemma np_add_array (len : nat) (acc : npval) (v : list Q) :
  np_shape len acc -> length v = len ->
  exists x, np_add acc (Array v) = Ok (Array x) /\ length x = len /\
            forall s, (s < len)%nat -> nth s x 0 = np_at acc s + nth s v 0.
Proof.
  intros Hs Hv. destruct acc as [q|l]; simpl in Hs.
  - exists (map (Qplus q) v). split; [reflexivity|]. split.
    + rewrite length_map. exact Hv.
    + intros s Hlt. simpl. apply nth_map_in_range. lia.
  - exists (zip_with Qplus l v). unfold np_add. simpl.
    rewrite Hs, Hv, Nat.eqb_refl. split; [reflexivity|]. split.
    + rewrite length_zip_with. lia.
    + intros s Hlt. simpl. apply nth_zip_with; lia.
Qed.

Lemma group_sum_spec (gen : list state) (k len : nat) (n : nat) :
  forall (a : nat) (acc : npval),
    np_shape len acc ->
    (forall j, (a <= j < a + n)%nat ->
       exists grp vec, nth_error gen j = Some grp /\ nth_error grp k = Some vec /\
                       length (vdata vec) = len) ->
    exists acc',
      foldM (fun acc j =>
               grp <- list_get gen j ;;
               vec <- list_get grp k ;;
               np_add acc (Array (vdata vec)))
        (seq a n) acc = Ok acc' /\
      np_shape len acc' /\
      ((1 <= n)%nat -> exists x, acc' = Array x) /\
      forall s, (s < len)%nat ->
        np_at acc' s == np_at acc s + fsum (map (fun j => raw_value gen j k s) (seq a n)).
Proof.
  induction n as [|n IH]; intros a acc Hs Hg.
  - exists acc. simpl. repeat split; auto; [lia|]. intros s _. ring.
  - cbn [seq foldM].
    destruct (Hg a) as [grp [vec [E1 [E2 E3]]]]; [lia|].
    unfold list_get at 1 2. rewrite E1. cbn [bind]. rewrite E2. cbn [bind].
    destruct (np_add_array len acc (vdata vec) Hs E3) as [x [Ex [Lx Nx]]].
    rewrite Ex. cbn [bind].
    destruct (IH (S a) (Array x)) as [acc' [F [S' [_ V]]]].
    + exact Lx.
    + intros j Hj. apply Hg. lia.
    + exists acc'. split; [exact F|]. split; [exact S'|]. split.
      * intros _. destruct n as [|n].
        -- simpl in F. inversion F. eauto.
        -- destruct (IH (S a) (Array x) Lx) as [acc2 [F2 [_ [A2 _]]]].
           { intros j Hj. apply Hg. lia. }
           rewrite F in F2. inversion F2; subst. apply A2. lia.
      * intros s Hlt. rewrite (V s Hlt). simpl. rewrite (Nx s Hlt).
        fold (fsum (map (fun j => raw_value gen j k s) (seq (S a) n))).
        assert (R : raw_value gen a k s = nth s (vdata vec) 0).
        { unfold raw_value. rewrite (nth_error_nth _ _ _ E1).
          rewrite (nth_error_nth _ _ _ E2). reflexivity. }
        rewrite R. ring.
Qed.

(** The reduction of lines 204-205 is the arithmetic mean: when there is at
    least one group and the vectors of player type [k] in generation [i]
    have the same length in all groups, [group_mean] returns an array of
    that length whose value at every strategy [s] is the sum over the groups
    of the raw values at [(i, k, s)], divided by the number of groups. *)
Lemma group_mean_is_mean (self : DynamicsSimulator) (hist : list (list state))
  (gen : list state) (k i len : nat) :
  (1 <= number_groups self)%Z ->
  nth_error hist i = Some gen ->
  (forall j, (j < Z.to_nat (number_groups self))%nat ->
     exists grp vec, nth_error gen j = Some grp /\ nth_error grp k = Some vec /\
                     length (vdata vec) = len) ->
  exists m,
    group_mean self hist k i = Ok (Array m) /\ length m = len /\
    forall s, (s < len)%nat ->
      nth s m 0 ==
      fsum (map (fun j => raw_value gen j k s) (seq 0 (Z.to_nat (number_groups self))))
      / inject_Z (number_groups self).
Proof.
  intros HG Hi Hg. unfold group_mean.
  assert (E : forall l acc,
            foldM (fun acc j =>
                     gen0 <- list_get hist i ;;
                     grp <- list_get gen0 j ;;
                     vec <- list_get grp k ;;
                     np_add acc (Array (vdata vec))) l acc
            = foldM (fun acc j =>
                       grp <- list_get gen j ;;
                       vec <- list_get grp k ;;
                       np_add acc (Array (vdata vec))) l acc).
  { induction l as [|j l IH]; intro acc; [reflexivity|].
    cbn [foldM]. unfold list_get at 1. rewrite Hi. cbn [bind].
    destruct (grp <- list_get gen j ;; vec <- list_get grp k ;;
              np_add acc (Array (vdata vec))); simpl; auto. }
  rewrite E.
  destruct (group_sum_spec gen k len (Z.to_nat (number_groups self)) 0 (Scalar 0))
    as [acc' [F [S' [A V]]]].
  - exact I.
  - intros j Hj. apply Hg. lia.
  - rewrite F. cbn [bind]. destruct A as [x Hx]; [lia|]. subst acc'.
    simpl in S'. unfold np_div.
    assert (Z0 : (number_groups self =? 0)%Z = false) by (apply Z.eqb_neq; lia).
    rewrite Z0.
    exists (map (fun q => q / inject_Z (number_groups self)) x).
    split; [reflexivity|]. split; [rewrite length_map; exact S'|].
    intros s Hlt. rewrite nth_map_in_range by lia.
    specialize (V s Hlt). simpl in V. rewrite V. field.
    intro C. unfold Qeq in C. simpl in C. lia.
Qed.

(** ** The simulation driver *)

Section DriverProperties.

Variable rng : Type.
Variable np_random_uniform : nat -> rng -> result (list Q * rng).
Variable np_random_multinomial : Q -> nat -> rng -> result (list Q * rng).
Variable np_random_dirichlet : nat -> rng -> result (list Q * rng).

(** What is assumed of numpy's samplers: each returns as many values as it
    is asked for, and a multinomial sample of [n_p] individuals sums to
    [n_p]. *)
Hypothesis uniform_length :
  forall n g v g', np_random_uniform n g = Ok (v, g') -> length v = n.
Hypothesis multinomial_length :
  forall n_p n g v g', np_random_multinomial n_p n g = Ok (v, g') -> length v = n.
Hypothesis dirichlet_length :
  forall n g v g', np_random_dirichlet n g = Ok (v, g') -> length v = n.
Hypothesis multinomial_sum :
  forall n_p n g v g', np_random_multinomial n_p n g = Ok (v, g') -> fsum v == n_p.

Local Abbreviation distribution :=
  (distribution_for_player np_random_uniform np_random_multinomial
     np_random_dirichlet).
Local Abbreviation start :=
  (initial_state np_random_uniform np_random_multinomial np_random_dirichlet).
Local Abbreviation run_with :=
  (run np_random_uniform np_random_multinomial np_random_dirichlet).
Local Abbreviation simulate_with :=
  (simulate np_random_uniform np_random_multinomial np_random_dirichlet).

Lemma draw_state_spec (P : Q -> nat -> list Q -> Prop)
  (dist : Q -> nat -> rng -> result (list Q * rng)) :
  (forall n_p n_s g v g', dist n_p n_s g = Ok (v, g') -> P n_p n_s v) ->
  forall n_ps n_ss g s g',
    draw_state dist n_ps n_ss g = Ok (s, g') ->
    forall t vec, nth_error s t = Some vec ->
      exists n_p n_s, nth_error n_ps t = Some n_p /\
                      nth_error n_ss t = Some n_s /\ P n_p n_s (vdata vec).
Proof.
  intros HP. induction n_ps as [|n_p n_ps IH]; intros n_ss g s g' H t vec Ht.
  - simpl in H. inversion H; subst. destruct t; discriminate.
  - destruct n_ss as [|n_s n_ss].
    + simpl in H. inversion H; subst. destruct t; discriminate.
    + cbn [draw_state] in H.
      apply bind_ok in H. destruct H as [[v g1] [Hv H]].
      apply bind_ok in H. destruct H as [[s1 g2] [Hs H]].
      simpl in H. inversion H; subst. clear H.
      destruct t as [|t]; simpl in Ht.
      * inversion Ht; subst. exists n_p, n_s. simpl. repeat split; auto.
        eapply HP; eauto.
      * simpl. eapply IH; eauto.
Qed.

Lemma draw_groups_spec (P : state -> Prop)
  (dist : Q -> nat -> rng -> result (list Q * rng)) (n_ps : list Q)
  (n_ss : list nat) :
  (forall g s g', draw_state dist n_ps n_ss g = Ok (s, g') -> P s) ->
  forall n g st g',
    draw_groups dist n_ps n_ss n g = Ok (st, g') ->
    length st = n /\ Forall P st.
Proof.
  intros HP. induction n as [|n IH]; intros g st g' H.
  - simpl in H. inversion H; subst. split; auto.
  - cbn [draw_groups] in H.
    apply bind_ok in H. destruct H as [[s g1] [Hs H]].
    apply bind_ok in H. destruct H as [[rest g2] [Hr H]].
    simpl in H. inversion H; subst. clear H.
    destruct (IH _ _ _ Hr) as [L F]. split; [simpl; lia|].
    constructor; auto. eapply HP; eauto.
Qed.

(** *** Supplied start states *)

Section Transition.

Variable next_generation :
  list state -> bool -> Q -> rng -> result ((list state * list state) * rng).

(** C10.  With a start state supplied, [simulate] and the start state it
    works from are the same for every value of [fixation_probability]
    and [strategy_indx]: the start state is the supplied one after
    validation, with the number of groups checked against its length and
    nothing else. *)
Theorem start_state_overrides_fixation (self : DynamicsSimulator)
  (num_gens : nat) (st : list state) (fixation_probability : bool)
  (strategy_indx : Z) (g : rng) :
  simulate_with next_generation self num_gens (Some st)
    fixation_probability strategy_indx g
  = simulate_with next_generation self num_gens (Some st) false 0%Z g
  /\
  start self (Some st) fixation_probability strategy_indx g
  = (_ <- py_assert (Z.of_nat (length st) =? number_groups self)%Z ;;
     st' <- validate_groups self st 0 (Z.to_nat (number_groups self)) ;;
     Ok (st', g)).
Proof. split; reflexivity. Qed.

(** *** The generation loop *)

Lemma generations_spec (self : DynamicsSimulator) (n : nat) :
  forall st strategies payoffs g strategies' payoffs' g',
    generations next_generation self n st strategies payoffs g
    = Ok ((strategies', payoffs'), g') ->
    exists new_s new_p,
      strategies' = strategies ++ new_s /\ length new_s = n /\
      payoffs' = payoffs ++ new_p /\ length new_p = n /\
      Forall (fun groups => length groups = Z.to_nat (number_groups self)
                            /\ Forall (conserved self) groups) new_s.
Proof.
  induction n as [|n IH]; intros st strategies payoffs g S' P' g' H.
  - simpl in H. inversion H; subst. exists [], [].
    rewrite !app_nil_r. repeat split; auto.
  - cbn [generations] in H.
    apply bind_ok in H. destruct H as [rpg [_ H]].
    apply bind_ok in H. destruct H as [rs [Hrs H]].
    apply bind_ok in H. destruct H as [ps [_ H]].
    apply bind_ok in H. destruct H as [stv [Hv H]].
    apply mapM_seq_length in Hrs.
    rewrite <- Hrs, <- (length_np_object_array rs) in Hv.
    apply validate_groups_all in Hv. destruct Hv as [Lv Fv].
    rewrite length_np_object_array, Hrs in Lv.
    destruct (IH _ _ _ _ _ _ _ H) as [ns [np [E1 [L1 [E2 [L2 F]]]]]].
    exists (stv :: ns), (np_object_array ps :: np).
    rewrite <- !app_assoc in E1, E2. simpl in E1, E2.
    repeat split; auto; simpl; lia.
Qed.

(** C3.  Whenever [simulate] returns, the lists [strategies] and [payoffs]
    of the run have [num_gens + 1] entries, but the result has, for the
    states and for the payoffs, one trajectory per player type with
    [num_gens] entries, the generations [0] to [num_gens - 1]: entry [i] of
    the trajectory of type [k] is [group_mean] of the run at [(i, k)], and
    the state reached by the last transition is not in the result. *)
Theorem simulate_trajectory_length (self : DynamicsSimulator)
  (num_gens : nat) (start_state : option (list state))
  (fixation_probability : bool) (strategy_indx : Z) (g g' : rng)
  (strategies_total payoffs_total : list (list npval)) :
  simulate_with next_generation self num_gens start_state
    fixation_probability strategy_indx g
  = Ok ((strategies_total, payoffs_total), g') ->
  exists strategies payoffs,
    run_with next_generation self num_gens start_state
      fixation_probability strategy_indx g = Ok ((strategies, payoffs), g') /\
    length strategies = S num_gens /\ length payoffs = S num_gens /\
    length strategies_total = num_player_types (pm self) /\
    length payoffs_total = num_player_types (pm self) /\
    (forall k traj, nth_error strategies_total k = Some traj ->
       length traj = num_gens /\
       forall i y, nth_error traj i = Some y ->
                   group_mean self strategies k i = Ok y) /\
    (forall k traj, nth_error payoffs_total k = Some traj ->
       length traj = num_gens /\
       forall i y, nth_error traj i = Some y ->
                   group_mean self payoffs k i = Ok y).
Proof.
  unfold simulate. intro H.
  apply bind_ok in H. destruct H as [[[strategies payoffs] g1] [Hrun H]].
  apply bind_ok in H. destruct H as [stot [Hs H]].
  apply bind_ok in H. destruct H as [ptot [Hp H]].
  simpl in H. inversion H; subst. clear H. simpl in Hs, Hp.
  assert (Hred : forall hist tot, reduce self num_gens hist = Ok tot ->
            length tot = num_player_types (pm self) /\
            forall k traj, nth_error tot k = Some traj ->
              length traj = num_gens /\
              forall i y, nth_error traj i = Some y ->
                          group_mean self hist k i = Ok y).
  { intros hist tot Hr. unfold reduce in Hr. split.
    - apply mapM_seq_length in Hr. exact Hr.
    - intros k traj Hk.
      assert (Hlt : (k < num_player_types (pm self))%nat).
      { rewrite <- (mapM_seq_length _ _ _ _ Hr). apply nth_error_Some. congruence. }
      assert (Ex : nth_error (seq 0 (num_player_types (pm self))) k = Some k).
      { rewrite nth_error_seq. apply Nat.ltb_lt in Hlt. rewrite Hlt. reflexivity. }
      destruct (mapM_nth _ _ _ Hr k k Ex) as [y [Hy Hm]].
      rewrite Hk in Hy. inversion Hy; subst y. split.
      + apply mapM_seq_length in Hm. exact Hm.
      + intros i y Hi.
        assert (Hi' : (i < num_gens)%nat).
        { rewrite <- (mapM_seq_length _ _ _ _ Hm). apply nth_error_Some. congruence. }
        assert (Ei : nth_error (seq 0 num_gens) i = Some i).
        { rewrite nth_error_seq. apply Nat.ltb_lt in Hi'. rewrite Hi'. reflexivity. }
        destruct (mapM_nth _ _ _ Hm i i Ei) as [z [Hz Hg]].
        rewrite Hi in Hz. inversion Hz; subst z. exact Hg. }
  destruct (Hred _ _ Hs) as [A1 A2]. destruct (Hred _ _ Hp) as [B1 B2].
  exists strategies, payoffs. split; [exact Hrun|].
  unfold run in Hrun.
  apply bind_ok in Hrun. destruct Hrun as [sg [_ Hrun]].
  apply bind_ok in Hrun. destruct Hrun as [pg [_ Hrun]].
  apply generations_spec in Hrun.
  destruct Hrun as [ns [np [E1 [L1 [E2 [L2 _]]]]]]. subst.
  simpl. split; [f_equal; exact L1|]. split; [f_equal; exact L2|].
  split; [exact A1|]. split; [exact B1|]. split; [exact A2 | exact B2].
Qed.

(** *** Population conservation *)



Lemma run_spec (self : DynamicsSimulator) (num_gens : nat)
  (start_state : option (list state)) (fixation_probability : bool)
  (strategy_indx : Z) (g g' : rng) (strategies payoffs : list (list state)) :
  run_with next_generation self num_gens start_state fixation_probability
    strategy_indx g = Ok ((strategies, payoffs), g') ->
  exists st0 g0 rest,
    start self start_state fixation_probability strategy_indx g = Ok (st0, g0) /\
    strategies = st0 :: rest /\ length rest = num_gens /\
    Forall (fun groups => length groups = Z.to_nat (number_groups self)
                          /\ Forall (conserved self) groups) rest.
Proof.
  unfold run. intro H.
  apply bind_ok in H. destruct H as [[st0 g0] [Hs H]].
  apply bind_ok in H. destruct H as [pg [_ H]].
  apply generations_spec in H.
  destruct H as [ns [np [E1 [L1 [_ [_ F]]]]]].
  exists st0, g0, ns. simpl in E1. repeat split; auto.
Qed.


End Transition.

(** *** The precondition of fixation seeding *)

Lemma distribution_length (self : DynamicsSimulator) (n_p : Q) (n_s : nat)
  (g g' : rng) (v : list Q) :
  distribution self n_p n_s g = Ok (v, g') -> length v = n_s.
Proof.
  unfold distribution_for_player. intro H.
  destruct (infinite_pop_size self); simpl in H.
  - apply bind_ok in H. destruct H as [[v1 g1] [Hd H]].
    simpl in H. inversion H; subst. rewrite length_map.
    eapply dirichlet_length; eauto.
  - destruct (uniDist self).
    + eapply uniform_length; eauto.
    + eapply multinomial_length; eauto.
Qed.

(** The seeding is what [simulate] applies to the drawn start state when
    there is one group and no start state is supplied. *)
Lemma start_with_fixation (self : DynamicsSimulator) (strategy_indx : Z)
  (g g1 : rng) (st : list state) :
  number_groups self = 1%Z ->
  draw_groups (distribution self) (num_players self) (num_strats (pm self)) 1 g
  = Ok (st, g1) ->
  start self None true strategy_indx g
  = (st' <- fixation_seeding st strategy_indx ;; Ok (st', g1)).
Proof.
  intros HG Hd. unfold initial_state. rewrite HG.
  change (Z.to_nat 1) with 1%nat. rewrite Hd. reflexivity.
Qed.

(** C8, as amended.  With no start state supplied and
    [fixation_probability=True], the start state cannot be built, and
    [simulate] raises before the first transition, whatever the transition
    rule and the number of generations, whenever the number of groups is
    not 1, or [strategy_indx] is at least the strategy count of the first
    player type, or below its negation. *)
Theorem fixation_precondition (self : DynamicsSimulator) (strategy_indx : Z)
  (g : rng) :
  let n0 := Z.of_nat (hd 0%nat (num_strats (pm self))) in
  (number_groups self <> 1 \/ n0 <= strategy_indx \/ strategy_indx < - n0)%Z ->
  exists e,
    start self None true strategy_indx g = Raise e /\
    forall next_generation num_gens,
      simulate_with next_generation self num_gens None true strategy_indx g
      = Raise e.
Proof.
  intros n0 H.
  assert (A : exists e, start self None true strategy_indx g = Raise e).
  { unfold initial_state.
    destruct (draw_groups (distribution self) (num_players self)
                (num_strats (pm self)) (Z.to_nat (number_groups self)) g)
      as [[st g1]|e] eqn:Hd; [|exists e; reflexivity].
    cbn [bind fst snd].
    destruct (number_groups self =? 1)%Z eqn:G1; [|exists AssertionError; reflexivity].
    apply Z.eqb_eq in G1. cbn [py_assert bind].
    rewrite G1 in Hd. simpl in Hd.
    apply bind_ok in Hd. destruct Hd as [[s g2] [Hs Hd]].
    simpl in Hd. inversion Hd; subst st g1. clear Hd.
    unfold fixation_seeding. cbn [list_get nth_error bind].
    destruct s as [|v0 rest]; [exists IndexError; reflexivity|].
    cbn [list_get nth_error bind].
    destruct (draw_state_spec (fun _ n_s v => length v = n_s) (distribution self)
                (fun n_p n_s g v g' => distribution_length self n_p n_s g g' v)
                _ _ _ _ _ Hs 0%nat v0 eq_refl) as [n_p [n_s [_ [E2 E3]]]].
    assert (En0 : n0 = Z.of_nat (length (vdata v0))).
    { unfold n0. destruct (num_strats (pm self)); [discriminate|].
      simpl in E2. inversion E2; subst. reflexivity. }
    unfold seed_vector. rewrite np_index_out_of_range by lia.
    exists IndexError. reflexivity. }
  destruct A as [e He]. exists e. split; [exact He|].
  intros next_generation num_gens. unfold simulate, run. rewrite He. reflexivity.
Qed.

End DriverProperties.

(** ** The driver on concrete runs *)

Lemma fsum_repeat_zero (m : nat) : fsum (repeat 0 m) == 0.
Proof.
  induction m as [|m IH]; simpl; [reflexivity|].
  fold (fsum (repeat 0 m)). rewrite IH. reflexivity.
Qed.

Lemma det_uniform_length (n : nat) (g : unit) (v : list Q) (g' : unit) :
  det_uniform n g = Ok (v, g') -> length v = n.
Proof. unfold det_uniform. intro H. inversion H. apply repeat_length. Qed.

Lemma det_multinomial_length (n_p : Q) (n : nat) (g : unit) (v : list Q)
  (g' : unit) :
  det_multinomial n_p n g = Ok (v, g') -> length v = n.
Proof.
  destruct n; simpl; intro H; inversion H. simpl. f_equal. apply repeat_length.
Qed.

Lemma det_dirichlet_length (n : nat) (g : unit) (v : list Q) (g' : unit) :
  det_dirichlet n g = Ok (v, g') -> length v = n.
Proof.
  destruct n; simpl; intro H; inversion H. simpl. f_equal. apply repeat_length.
Qed.

Lemma det_multinomial_sum (n_p : Q) (n : nat) (g : unit) (v : list Q)
  (g' : unit) :
  det_multinomial n_p n g = Ok (v, g') -> fsum v == n_p.
Proof.
  destruct n; simpl; intro H; inversion H. simpl.
  fold (fsum (repeat 0 n)). rewrite fsum_repeat_zero. ring.
Qed.



Lemma simulate_trajectory_length_witness :
  let self := example_self (example_pm 1 [2]%nat) [3] 1 in
  let start_state := Some [[ndarray [1; 2]]] in
  exists strategies_total payoffs_total,
    simulate det_uniform det_multinomial det_dirichlet stay self 1 start_state
      false 0 tt = Ok ((strategies_total, payoffs_total), tt) /\
    strategies_total = [[Array [0 + 1; 0 + 2]]] /\
    exists strategies payoffs,
      run det_uniform det_multinomial det_dirichlet stay self 1 start_state
        false 0 tt = Ok ((strategies, payoffs), tt) /\
      length strategies = 2%nat /\ length payoffs = 2%nat /\
      length strategies_total = 1%nat /\
      length payoffs_total = 1%nat /\
      (forall k traj, nth_error strategies_total k = Some traj ->
         length traj = 1%nat /\
         forall i y, nth_error traj i = Some y ->
                     group_mean self strategies k i = Ok y) /\
      (forall k traj, nth_error payoffs_total k = Some traj ->
         length traj = 1%nat /\
         forall i y, nth_error traj i = Some y ->
                     group_mean self payoffs k i = Ok y).
Proof.
  intros self start_state.
  destruct (simulate det_uniform det_multinomial det_dirichlet stay self 1
              start_state false 0 tt) as [[[stot ptot] []]|e] eqn:Hs;
    [|vm_compute in Hs; discriminate].
  exists stot, ptot. split; [reflexivity|]. split.
  - vm_compute in Hs. inversion Hs. reflexivity.
  - exact (simulate_trajectory_length unit det_uniform det_multinomial
             det_dirichlet stay self 1 start_state false 0%Z tt tt stot ptot Hs).
Defined.

Lemma fixation_precondition_witness :
  (1 <> 1 \/ 2 <= 2 \/ 2 < - 2)%Z /\
  exists e,
    initial_state det_uniform det_multinomial det_dirichlet
      (example_self (example_pm 1 [2]%nat) [3] 1) None true 2 tt = Raise e /\
    forall next_generation num_gens,
      simulate det_uniform det_multinomial det_dirichlet next_generation
        (example_self (example_pm 1 [2]%nat) [3] 1) num_gens None true 2 tt
      = Raise e.
Proof.
  assert (H : (1 <> 1 \/ 2 <= 2 \/ 2 < - 2)%Z) by (right; left; lia).
  split; [exact H|].
  exact (fixation_precondition unit det_uniform det_multinomial det_dirichlet
           det_uniform_length det_multinomial_length det_dirichlet_length
           (example_self (example_pm 1 [2]%nat) [3] 1) 2%Z tt H).
Defined.

(** C8 as stated fails: with a start state supplied, two groups and a
    strategy index far out of range, [simulate] with
    [fixation_probability=True] runs its generation and returns. *)
Lemma fixation_ignored_with_start_state :
  let self := example_self (example_pm 1 [2]%nat) [3] 2 in
  number_groups self = 2%Z /\
  hd 0%nat (num_strats (pm self)) = 2%nat /\
  simulate det_uniform det_multinomial det_dirichlet stay self 1
    (Some [[ndarray [1; 2]]; [ndarray [3; 0]]]) true 7 tt
  = Ok (([[Array [4 # 2; 2 # 2]]], [[Array [0 # 8; 0 # 8]]]), tt).
Proof.
  intro self. split; [reflexivity|]. split; [reflexivity|].
  vm_compute. reflexivity.
Qed.

(** * Further properties of the code *)

(** ** round_individuals on arbitrary inputs *)

















(** ** Construction, in full *)








(** ** validate_state, once more *)

Lemma canonical_idem (p : pyvec) : canonical (canonical p) = canonical p.
Proof. destruct p as [[] d]; reflexivity. Qed.

Lemma entry_ok_canonical (p : pyvec) (e : Q) (n : nat) :
  entry_ok (canonical p) e n = entry_ok p e n.
Proof. unfold entry_ok. rewrite canonical_idem, vdata_canonical. reflexivity. Qed.

Lemma validate_loop_idem (s : state) :
  forall (es : list Q) (ns : list nat) (s' : state),
    validate_loop s es ns = Ok s' -> validate_loop s' es ns = Ok s'.
Proof.
  induction s as [|p s IH]; intros es ns s' H.
  - simpl in H. inversion H. reflexivity.
  - destruct es as [|e es]; [simpl in H; inversion H; reflexivity|].
    destruct ns as [|n ns]; [simpl in H; inversion H; reflexivity|].
    cbn [validate_loop] in H. rewrite validate_entry_eq in H.
    destruct (entry_ok p e n) eqn:E; [|discriminate].
    cbn [bind] in H. apply bind_ok in H. destruct H as [rest [Hr H]].
    inversion H; subst s'. clear H.
    cbn [validate_loop]. rewrite validate_entry_eq, entry_ok_canonical, E.
    cbn [bind]. rewrite (IH _ _ _ Hr), canonical_idem. reflexivity.
Qed.

(** X6.  Validation is idempotent: a state that [validate_state] returns
    has the length of the one it was given, and validating it again returns
    it unchanged. *)
Theorem validate_state_idempotent (self : DynamicsSimulator) (s s' : state) :
  validate_state self s = Ok s' ->
  length s' = length s /\ validate_state self s' = Ok s'.
Proof.
  unfold validate_state. intro H.
  apply bind_ok in H. destruct H as [u [Ha H]]. apply py_assert_ok in Ha.
  destruct (validate_loop_sound _ _ _ _ H) as [L _].
  split; [exact L|].
  rewrite L, Ha. cbn [py_assert bind]. eapply validate_loop_idem; eauto.
Qed.

Lemma validate_state_idempotent_witness :
  let self := example_self (example_pm 2 [2; 1]%nat) [3; 1] 1 in
  let s := [ {| vkind := PyList; vdata := [1; 2] |};
             {| vkind := PyTuple; vdata := [1] |} ] in
  validate_state self s = Ok [ndarray [1; 2]; ndarray [1]] /\
  length [ndarray [1; 2]; ndarray [1]] = length s /\
  validate_state self [ndarray [1; 2]; ndarray [1]]
  = Ok [ndarray [1; 2]; ndarray [1]].
Proof.
  intros self s.
  assert (E : validate_state self s = Ok [ndarray [1; 2]; ndarray [1]])
    by (vm_compute; reflexivity).
  split; [exact E|].
  exact (validate_state_idempotent self s _ E).
Defined.

(** ** The loop over the groups *)

Lemma list_set_app {A : Type} (pre : list A) (x y : A) (t : list A) :
  list_set (pre ++ x :: t) (length pre) y = Ok (pre ++ y :: t).
Proof.
  induction pre as [|h pre IH]; simpl; [reflexivity|].
  rewrite IH. reflexivity.
Qed.

Lemma validate_groups_mapM (self : DynamicsSimulator) (l : list state) :
  forall pre,
    validate_groups self (pre ++ l) (length pre) (length l)
    = (l' <- mapM (validate_state self) l ;; Ok (pre ++ l')).
Proof.
  induction l as [|x t IH]; intro pre.
  - simpl. reflexivity.
  - cbn [length validate_groups mapM].
    unfold list_get. rewrite nth_error_app2 by lia.
    rewrite Nat.sub_diag. cbn [nth_error bind].
    destruct (validate_state self x) as [x'|e]; cbn [bind]; [|reflexivity].
    rewrite list_set_app. cbn [bind].
    replace (pre ++ x' :: t) with ((pre ++ [x']) ++ t)
      by (rewrite <- app_assoc; reflexivity).
    replace (S (length pre)) with (length (pre ++ [x']))
      by (rewrite length_app; simpl; lia).
    rewrite IH.
    destruct (mapM (validate_state self) t) as [t'|e]; cbn [bind]; [|reflexivity].
    rewrite <- app_assoc. reflexivity.
Qed.

Lemma validate_groups_all_mapM (self : DynamicsSimulator) (st : list state) :
  validate_groups self st 0 (length st) = mapM (validate_state self) st.
Proof.
  pose proof (validate_groups_mapM self st []) as E. simpl in E. rewrite E.
  destruct (mapM (validate_state self) st); reflexivity.
Qed.

Lemma mapM_validated (self : DynamicsSimulator) (st st' : list state) :
  mapM (validate_state self) st = Ok st' ->
  length st' = length st /\ Forall (validated self) st'.
Proof.
  revert st'. induction st as [|x t IH]; intros st' H; simpl in H.
  - inversion H. split; auto.
  - apply bind_ok in H. destruct H as [x' [Hx H]].
    apply bind_ok in H. destruct H as [t' [Ht H]].
    inversion H; subst st'. destruct (IH _ Ht) as [L F].
    split; [simpl; lia|]. constructor; auto. exists x. exact Hx.
Qed.

(** The shape of a validated state: one vector per player type, and every
    vector that has a configured total and strategy count is a numpy array
    of that length and total. *)
Lemma validated_shape (self : DynamicsSimulator) (grp : state) :
  validated self grp ->
  length grp = num_player_types (pm self) /\
  forall t vec total n,
    nth_error grp t = Some vec ->
    nth_error (num_players self) t = Some total ->
    nth_error (num_strats (pm self)) t = Some n ->
    vkind vec = NdArray /\ fsum (vdata vec) == total /\ length (vdata vec) = n.
Proof.
  intros [s H]. unfold validate_state in H.
  apply bind_ok in H. destruct H as [u [Ha H]]. apply py_assert_ok in Ha.
  apply Nat.eqb_eq in Ha.
  destruct (validate_loop_sound _ _ _ _ H) as [L A].
  split; [lia | exact A].
Qed.

(** ** Fixation seeding for every index *)

Lemma dist_fold_length (ptd : Q) (nd : Z) (l : list nat) :
  forall acc,
    length (snd (fold_left (dist_step ptd nd) l acc))
    = (length (snd acc) + length l)%nat.
Proof.
  induction l as [|i l IH]; intro acc; simpl; [lia|].
  rewrite IH. destruct acc as [count pd]. unfold dist_step.
  destruct (negb (Z.of_nat i =? nd - 1)%Z); simpl; rewrite length_app; simpl; lia.
Qed.

Lemma list_insert_any (l : list Q) (k : Z) (x : Q) :
  length (list_insert l k x) = S (length l) /\
  fsum (list_insert l k x) == fsum l + x.
Proof.
  unfold list_insert.
  set (pos := Z.to_nat (if (k <? 0)%Z
                        then Z.max 0 (Z.of_nat (length l) + k)
                        else Z.min (Z.of_nat (length l)) k)).
  assert (Hp : (pos <= length l)%nat).
  { unfold pos. destruct (k <? 0)%Z eqn:E.
    - apply Z.ltb_lt in E. lia.
    - lia. }
  split.
  - rewrite length_app. simpl. rewrite length_firstn, length_skipn. lia.
  - rewrite fsum_app. simpl. fold (fsum (skipn pos l)).
    rewrite <- (firstn_skipn pos l) at 3. rewrite fsum_app. ring.
Qed.

Lemma player_dist_of_length (ptd : Q) (len : nat) (k : Z) :
  (1 <= len)%nat -> length (player_dist_of ptd len k) = len.
Proof.
  intro H. unfold player_dist_of.
  destruct (list_insert_any
              (snd (fold_left (dist_step ptd (Z.of_nat len - 1))
                      (seq 0 (Z.to_nat (Z.of_nat len - 1))) (0%Z, []))) k 0) as [L _].
  rewrite L, dist_fold_length, length_seq. simpl. lia.
Qed.

Lemma player_dist_of_sum (ptd : Q) (len : nat) (k : Z) :
  (2 <= len)%nat -> fsum (player_dist_of ptd len k) == ptd.
Proof.
  intro H. unfold player_dist_of.
  destruct (dist_fold_total ptd (Z.of_nat len - 1)) as [count [pd [E [_ Hs]]]]; [lia|].
  rewrite E. simpl.
  destruct (list_insert_any pd k 0) as [_ S']. rewrite S', Hs. ring.
Qed.

Lemma np_index_valid (len : nat) (k : Z) :
  (- Z.of_nat len <= k < Z.of_nat len)%Z ->
  exists pos, np_index len k = Ok pos /\ (pos < len)%nat /\
              ((0 <= k)%Z -> pos = Z.to_nat k).
Proof.
  intro H. unfold np_index.
  destruct (Z.leb_spec 0 k) as [A|A]; destruct (Z.ltb_spec k (Z.of_nat len)) as [B|B];
    try lia; cbn [andb].
  - exists (Z.to_nat k). repeat split; auto. lia.
  - destruct (Z.leb_spec (- Z.of_nat len) k) as [C|C];
      destruct (Z.ltb_spec k 0) as [D|D]; try lia; cbn [andb].
    exists (Z.to_nat (Z.of_nat len + k)). repeat split; auto; lia.
Qed.

Lemma seed_vector_cases (vec : list Q) (k : Z) :
  let n := Z.of_nat (length vec) in
  (is_ok (seed_vector vec k) = true <-> (- n <= k < n)%Z) /\
  (forall e, seed_vector vec k = Raise e -> e = IndexError) /\
  (forall vec', seed_vector vec k = Ok vec' ->
     length vec' = length vec /\
     ((2 <= length vec)%nat -> fsum vec' == fsum vec)).
Proof.
  intro n.
  destruct (Z_le_dec (- n) k) as [Hlo|Hlo]; [destruct (Z_lt_dec k n) as [Hhi|Hhi]|].
  2,3: unfold seed_vector; rewrite np_index_out_of_range by (unfold n in *; lia);
       cbn [bind is_ok]; split; [split; [discriminate | lia]|];
       split; [intros e H; inversion H; reflexivity | intros vec' H; discriminate].
  destruct (np_index_valid (length vec) k) as [pos [Ep [Hpos Hk]]];
    [unfold n in *; lia|].
  unfold seed_vector. rewrite Ep. cbn [bind].
  destruct (nth_error vec pos) as [x|] eqn:Ex.
  2:{ apply nth_error_None in Ex. lia. }
  unfold list_get. rewrite Ex. cbn [bind].
  destruct (list_set_spec vec pos 1 Hpos) as [vec1 [E1 [L1 _]]].
  rewrite E1. cbn [bind]. rewrite L1.
  set (pd := player_dist_of (x - 1) (length vec) k).
  assert (Lpd : length pd = length vec) by (apply player_dist_of_length; lia).
  destruct (seed_loop k pd (length vec) 0 vec1 (Scalar (x - 1)))
    as [vec' [ptd' [E [L N]]]]; try lia; [exact I|].
  rewrite E. cbn [bind fst is_ok].
  split; [split; [lia | reflexivity]|].
  split; [intros e H; discriminate|].
  intros vec2 H. inversion H; subst vec2. clear H.
  split; [lia|]. intro H2.
  assert (S1 : fsum vec' == fsum vec1 + fsum pd).
  { apply fsum_pointwise; try lia.
    intros i Hi. rewrite N.
    destruct (Nat.leb_spec 0 i); [|lia].
    destruct (Nat.ltb_spec i (0 + length vec)); [|simpl in *; lia].
    destruct (Z.eqb_spec (Z.of_nat i) k) as [Ek|Ek]; cbn [andb negb].
    - assert (Z0 : nth (Z.to_nat k) pd 0 = 0).
      { apply (player_dist_of_spec (x - 1) (length vec) k); lia. }
      rewrite <- Ek, Nat2Z.id in Z0. rewrite Z0. ring.
    - reflexivity. }
  rewrite S1, (fsum_list_set _ _ _ _ _ Ex E1).
  unfold pd. rewrite player_dist_of_sum by lia. ring.
Qed.

(** X7.  Fixation seeding for every index.  On a vector of [n] entries the
    seeding returns exactly when [-n <= strategy_indx < n], numpy's index
    range, and raises [IndexError] otherwise.  When it returns, the vector
    keeps its length, and with at least two entries it keeps its total,
    for the negative indices too. *)
Theorem seed_vector_returns_iff (vec : list Q) (strategy_indx : Z) :
  let n := Z.of_nat (length vec) in
  (is_ok (seed_vector vec strategy_indx) = true <-> (- n <= strategy_indx < n)%Z) /\
  (forall e, seed_vector vec strategy_indx = Raise e -> e = IndexError) /\
  (forall vec', seed_vector vec strategy_indx = Ok vec' ->
     length vec' = length vec /\
     ((2 <= length vec)%nat -> fsum vec' == fsum vec)).
Proof. exact (seed_vector_cases vec strategy_indx). Qed.

Lemma seed_vector_returns_iff_witness :
  seed_vector [3; 2; 4] (-1) = Ok [3 + 1; 2 + 0; 1 + 2] /\
  length [3 + 1; 2 + 0; 1 + 2] = length [3; 2; 4] /\
  fsum [3 + 1; 2 + 0; 1 + 2] == fsum [3; 2; 4] /\
  seed_vector [3; 2; 4] 3 = Raise IndexError.
Proof.
  assert (E : seed_vector [3; 2; 4] (-1) = Ok [3 + 1; 2 + 0; 1 + 2])
    by (vm_compute; reflexivity).
  destruct (seed_vector_returns_iff [3; 2; 4] (-1)) as [_ [_ H]].
  destruct (H _ E) as [L S'].
  split; [exact E|]. split; [exact L|]. split; [apply S'; simpl; lia|].
  vm_compute. reflexivity.
Defined.

(** ** calculate_payoffs for unequal strategy counts *)

Lemma nth_error_payoff_table (self : DynamicsSimulator) (st : state) (t n : nat) :
  nth_error (num_strats (pm self)) t = Some n ->
  exists row, nth_error (payoff_table self st) t = Some row /\ length row = n.
Proof.
  intro H. unfold payoff_table.
  rewrite nth_error_map, nth_error_enumerate, H. simpl.
  eexists. split; [reflexivity|]. rewrite length_map, length_seq. reflexivity.
Qed.

Lemma length_payoff_table (self : DynamicsSimulator) (st : state) :
  length (payoff_table self st) = length (num_strats (pm self)).
Proof. unfold payoff_table. rewrite length_map. apply length_enumerate. Qed.

Lemma hd_payoff_table (self : DynamicsSimulator) (st : state) :
  length (hd [] (payoff_table self st)) = hd 0%nat (num_strats (pm self)).
Proof.
  destruct (num_strats (pm self)) as [|n ns] eqn:E.
  - unfold payoff_table. rewrite E. reflexivity.
  - destruct (nth_error_payoff_table self st 0 n) as [row [Hr Lr]].
    { rewrite E. reflexivity. }
    destruct (payoff_table self st); [discriminate|].
    simpl in Hr. inversion Hr; subst. reflexivity.
Qed.

Lemma mapM_errors {A B : Type} (f : A -> result B) (P : exn -> Prop) (l : list A) :
  (forall x e, f x = Raise e -> P e) ->
  forall e, mapM f l = Raise e -> P e.
Proof.
  intros Hf. induction l as [|h t IH]; intros e H; simpl in H; [discriminate|].
  destruct (f h) as [y|e1] eqn:Eh; cbn [bind] in H.
  - destruct (mapM f t) as [ys|e2]; cbn [bind] in H; [discriminate|].
    inversion H; subst. apply IH. reflexivity.
  - inversion H; subst. eapply Hf; eauto.
Qed.

Lemma list_get_raise {A : Type} (l : list A) (i : nat) (e : exn) :
  list_get l i = Raise e -> e = IndexError.
Proof.
  unfold list_get. destruct (nth_error l i); intro H; inversion H; reflexivity.
Qed.

Lemma payoff_terms_errors (payoff : list (list Q)) (st : state) (e : exn) :
  payoff_terms payoff st = Raise e -> e = IndexError.
Proof.
  unfold payoff_terms. revert e.
  apply (mapM_errors _ (fun e => e = IndexError)). intros i e H.
  destruct (list_get payoff 0) as [row0|e0] eqn:E0; cbn [bind] in H.
  2:{ inversion H; subst. eapply list_get_raise; eauto. }
  revert e H. apply (mapM_errors _ (fun e => e = IndexError)). intros j e H.
  destruct (list_get payoff i) as [row|e1] eqn:E1; cbn [bind] in H.
  2:{ inversion H; subst. eapply list_get_raise; eauto. }
  destruct (list_get row j) as [pij|e2] eqn:E2; cbn [bind] in H.
  2:{ inversion H; subst. eapply list_get_raise; eauto. }
  destruct (list_get st i) as [si|e3] eqn:E3; cbn [bind] in H.
  2:{ inversion H; subst. eapply list_get_raise; eauto. }
  destruct (list_get (vdata si) j) as [sij|e4] eqn:E4; cbn [bind] in H.
  2:{ inversion H; subst. eapply list_get_raise; eauto. }
  discriminate.
Qed.

Lemma payoff_terms_fewer (self : DynamicsSimulator) (st : state) (t n_t : nat) :
  nth_error (num_strats (pm self)) t = Some n_t ->
  (n_t < hd 0%nat (num_strats (pm self)))%nat ->
  payoff_terms (payoff_table self st) st = Raise IndexError.
Proof.
  intros Ht Hlt.
  destruct (payoff_terms (payoff_table self st) st) as [terms|e] eqn:E.
  2:{ f_equal. eapply payoff_terms_errors; eauto. }
  exfalso. unfold payoff_terms in E.
  destruct (nth_error_payoff_table self st t n_t Ht) as [row [Hrow Lrow]].
  assert (Hti : (t < length (payoff_table self st))%nat).
  { apply nth_error_Some. congruence. }
  assert (Et : nth_error (seq 0 (length (payoff_table self st))) t = Some t).
  { rewrite nth_error_seq. apply Nat.ltb_lt in Hti. rewrite Hti. reflexivity. }
  destruct (mapM_nth _ _ _ E t t Et) as [y [_ Hy]].
  destruct (payoff_table self st) as [|row0 rest] eqn:Ep; [simpl in Hti; lia|].
  cbn [list_get nth_error bind] in Hy.
  assert (L0 : length row0 = hd 0%nat (num_strats (pm self))).
  { rewrite <- (hd_payoff_table self st), Ep. reflexivity. }
  assert (Ej : nth_error (seq 0 (length row0)) n_t = Some n_t).
  { rewrite nth_error_seq. assert (X : (n_t <? length row0)%nat = true)
      by (apply Nat.ltb_lt; lia). rewrite X. reflexivity. }
  destruct (mapM_nth _ _ _ Hy n_t n_t Ej) as [z [_ Hz]].
  unfold list_get in Hz at 1. rewrite Hrow in Hz. cbn [bind] in Hz.
  assert (N : nth_error row n_t = None) by (apply nth_error_None; lia).
  unfold list_get in Hz at 1. rewrite N in Hz. discriminate.
Qed.

(** X8.  The errors of [calculate_payoffs].  It raises [IndexError]
    whenever some player type has fewer strategies than the first one; and
    in every case the only errors are [IndexError] and, for a population
    that sums to zero, [ZeroDivisionError]. *)
Theorem calculate_payoffs_errors (self : DynamicsSimulator) (st : state) :
  (forall t n_t,
     nth_error (num_strats (pm self)) t = Some n_t ->
     (n_t < hd 0%nat (num_strats (pm self)))%nat ->
     calculate_payoffs self st = Raise IndexError) /\
  (forall e, calculate_payoffs self st = Raise e ->
     e = IndexError \/
     (e = ZeroDivisionError /\ fsum (concat (map vdata st)) == 0)).
Proof.
  split.
  - intros t n_t Ht Hlt. unfold calculate_payoffs.
    rewrite (payoff_terms_fewer self st t n_t Ht Hlt). reflexivity.
  - intros e H. unfold calculate_payoffs in H.
    destruct (payoff_terms (payoff_table self st) st) as [terms|e0] eqn:E;
      cbn [bind] in H.
    + unfold py_div in H.
      destruct (Qeq_bool (fsum (concat (map vdata st))) 0) eqn:Z0;
        cbn [bind] in H; [|discriminate].
      inversion H; subst. right. split; [reflexivity|].
      apply Qeq_bool_eq. exact Z0.
    + inversion H; subst. left. eapply payoff_terms_errors; eauto.
Qed.

Lemma calculate_payoffs_errors_witness :
  let self := example_self (unit_pm 2 [2; 1]%nat) [2; 1] 1 in
  nth_error (num_strats (pm self)) 1 = Some 1%nat /\
  (1 < hd 0%nat (num_strats (pm self)))%nat /\
  calculate_payoffs self [ndarray [1; 1]; ndarray [1]] = Raise IndexError.
Proof.
  intro self.
  assert (H1 : nth_error (num_strats (pm self)) 1 = Some 1%nat) by reflexivity.
  assert (H2 : (1 < hd 0%nat (num_strats (pm self)))%nat) by (simpl; lia).
  split; [exact H1|]. split; [exact H2|].
  exact (proj1 (calculate_payoffs_errors self [ndarray [1; 1]; ndarray [1]])
           1%nat 1%nat H1 H2).
Defined.

Lemma zip_with_firstn_seq (f : Q -> Q -> Q) (n0 : nat) :
  forall (row vec : list Q),
    (n0 <= length row)%nat -> (n0 <= length vec)%nat ->
    map (fun j => f (nth j row 0) (nth j vec 0)) (seq 0 n0)
    = zip_with f (firstn n0 row) vec.
Proof.
  induction n0 as [|n0 IH]; intros row vec Hr Hv; [reflexivity|].
  destruct row as [|x row]; [simpl in Hr; lia|].
  destruct vec as [|y vec]; [simpl in Hv; lia|].
  cbn [seq map firstn zip_with nth]. f_equal.
  rewrite <- seq_shift, map_map. simpl. apply IH; simpl in *; lia.
Qed.

Lemma payoff_terms_first_count (payoff : list (list Q)) (st : state) (n0 : nat) :
  n0 = length (hd [] payoff) ->
  Forall (fun row => (n0 <= length row)%nat) payoff ->
  Forall2 (fun row v => length row = length (vdata v)) payoff st ->
  payoff_terms payoff st
  = Ok (map (fun pr => zip_with Qmult (firstn n0 (fst pr)) (vdata (snd pr)))
            (combine payoff st)).
Proof.
  intros Hn0 Hp Hs. unfold payoff_terms.
  assert (L : length payoff = length st) by (eapply Forall2_length; eauto).
  rewrite <- (map_seq_nth2 (fun row v => zip_with Qmult (firstn n0 row) (vdata v))
                [] (ndarray []) payoff st L).
  apply mapM_ext_ok. intros i Hi. apply in_seq in Hi.
  destruct payoff as [|row0 rest] eqn:Ep; [simpl in Hi; lia|].
  rewrite <- Ep in *.
  assert (G0 : list_get payoff 0 = Ok row0) by (rewrite Ep; reflexivity).
  assert (N0 : n0 = length row0) by (rewrite Hn0, Ep; reflexivity).
  rewrite G0. cbn [bind]. rewrite <- N0.
  destruct (nth_error payoff i) as [row|] eqn:Er.
  2:{ apply nth_error_None in Er. lia. }
  destruct (nth_error st i) as [v|] eqn:Ev.
  2:{ apply nth_error_None in Ev. lia. }
  assert (Lr : (n0 <= length row)%nat).
  { rewrite Forall_forall in Hp. apply Hp. eapply nth_error_In; eauto. }
  assert (Lv : length row = length (vdata v)).
  { clear - Hs Er Ev. revert i Er Ev.
    induction Hs as [|a b la lb Hab Hs IH]; intros [|i] Er Ev; simpl in *;
      try discriminate.
    - inversion Er; inversion Ev; subst. exact Hab.
    - eapply IH; eauto. }
  rewrite (nth_error_nth _ _ [] Er), (nth_error_nth _ _ (ndarray []) Ev).
  rewrite <- (zip_with_firstn_seq Qmult n0 row (vdata v)) by lia.
  apply mapM_ext_ok. intros j Hj. apply in_seq in Hj.
  unfold list_get. rewrite Er. cbn [bind].
  destruct (nth_error row j) as [pij|] eqn:E1.
  2:{ apply nth_error_None in E1. lia. }
  cbn [bind]. rewrite Ev. cbn [bind].
  destruct (nth_error (vdata v) j) as [sij|] eqn:E2.
  2:{ apply nth_error_None in E2. lia. }
  cbn [bind]. rewrite (nth_error_nth _ _ 0 E1), (nth_error_nth _ _ 0 E2).
  reflexivity.
Qed.

(** X9.  What [calculate_payoffs] averages.  For a state with one vector
    per player type of that type's strategy count, no type having fewer
    strategies than the first, and a population that does not sum to zero,
    the function returns the table of expected payoffs and, as the average,
    the products of payoff and count over the first [len(payoff[0])]
    strategies of every type, divided by the whole population: the further
    strategies of a type count in the divisor only. *)
Theorem calculate_payoffs_first_count (self : DynamicsSimulator) (st : state) :
  Forall2 (fun v n => length (vdata v) = n) st (num_strats (pm self)) ->
  Forall (fun n => (hd 0%nat (num_strats (pm self)) <= n)%nat) (num_strats (pm self)) ->
  ~ fsum (concat (map vdata st)) == 0 ->
  calculate_payoffs self st
  = Ok (payoff_table self st, first_count_mean (payoff_table self st) st).
Proof.
  intros Hs Hn Hz. unfold calculate_payoffs.
  rewrite (payoff_terms_first_count _ st (length (hd [] (payoff_table self st)))).
  - cbn [bind]. unfold py_div, first_count_mean.
    destruct (Qeq_bool (fsum (concat (map vdata st))) 0) eqn:E.
    + exfalso. apply Hz. apply Qeq_bool_eq. exact E.
    + reflexivity.
  - reflexivity.
  - rewrite hd_payoff_table. apply Forall_forall. intros row Hr.
    apply In_nth_error in Hr. destruct Hr as [t Ht].
    assert (Hlt : (t < length (num_strats (pm self)))%nat).
    { rewrite <- (length_payoff_table self st). apply nth_error_Some. congruence. }
    destruct (nth_error (num_strats (pm self)) t) as [n|] eqn:En.
    2:{ apply nth_error_None in En. lia. }
    destruct (nth_error_payoff_table self st t n En) as [row' [Hr' Lr']].
    rewrite Ht in Hr'. inversion Hr'; subst row'. rewrite Lr'.
    rewrite Forall_forall in Hn. apply Hn. eapply nth_error_In; eauto.
  - assert (G : forall ns (f : nat * nat -> list Q) (l : list (nat * nat)) s,
               map snd l = ns -> (forall pn, length (f pn) = snd pn) ->
               Forall2 (fun v n => length (vdata v) = n) s ns ->
               Forall2 (fun row v => length row = length (vdata v)) (map f l) s).
    { intros ns f l s El Hf F. revert l El.
      induction F as [|v n s' ns' Hvn Fs IH]; intros l El.
      - destruct l; [constructor | discriminate].
      - destruct l as [|pn l]; [discriminate|]. simpl in El.
        injection El as E1 E2. simpl. constructor.
        + rewrite Hf, E1. symmetry. exact Hvn.
        + apply IH. exact E2. }
    unfold payoff_table. eapply G; [| |exact Hs].
    + unfold enumerate. clear. generalize 0%nat.
      induction (num_strats (pm self)) as [|n ns IH]; intro a; simpl; [reflexivity|].
      f_equal. apply IH.
    + intros pn. rewrite length_map, length_seq. reflexivity.
Qed.

Lemma calculate_payoffs_first_count_witness :
  let self := example_self (unit_pm 2 [1; 2]%nat) [1; 2] 1 in
  let st := [ndarray [1]; ndarray [1; 1]] in
  Forall2 (fun v n => length (vdata v) = n) st (num_strats (pm self)) /\
  calculate_payoffs self st
  = Ok (payoff_table self st, first_count_mean (payoff_table self st) st) /\
  first_count_mean (payoff_table self st) st == 2 # 3.
Proof.
  intros self st.
  assert (H1 : Forall2 (fun v n => length (vdata v) = n) st (num_strats (pm self)))
    by (repeat constructor).
  split; [exact H1|]. split; [|vm_compute; reflexivity].
  apply (calculate_payoffs_first_count self st H1).
  - repeat constructor.
  - vm_compute. discriminate.
Defined.


(** ** Fixation seeding keeps counts non-negative *)

Lemma dist_fold_nonneg (ptd : Q) (nd : Z) (m : nat) :
  0 <= ptd -> (1 <= nd)%Z -> (Z.of_nat m <= nd - 1)%Z ->
  let div := py_int (ptd / inject_Z nd) in
  exists pd,
    fold_left (dist_step ptd nd) (seq 0 m) (0%Z, [])
    = ((Z.of_nat m * div)%Z, pd) /\
    Forall (fun x => 0 <= x) pd.
Proof.
  intros Hp Hn. induction m as [|m IH]; intros Hm div.
  - exists []. split; [reflexivity | constructor].
  - destruct IH as [pd [E F]]; [lia|].
    assert (C : (Z.of_nat (S m) * div = Z.of_nat m * div + div)%Z)
      by (rewrite Nat2Z.inj_succ; ring).
    rewrite C, seq_S, fold_left_app, E. simpl.
    assert (N : (Z.of_nat m =? nd - 1)%Z = false) by (apply Z.eqb_neq; lia).
    rewrite N. simpl. fold div.
    exists (pd ++ [inject_Z div]). split.
    + reflexivity.
    + apply Forall_app. split; [exact F|]. constructor; [|constructor].
      change 0 with (inject_Z 0). rewrite <- Zle_Qle.
      unfold div. rewrite py_int_nonneg.
      * rewrite <- (Qfloor_Z 0). apply Qfloor_resp_le.
        apply Qle_shift_div_l; [change 0 with (inject_Z 0); rewrite <- Zlt_Qlt; lia|].
        rewrite Qmult_0_l. exact Hp.
      * apply Qle_shift_div_l; [change 0 with (inject_Z 0); rewrite <- Zlt_Qlt; lia|].
        rewrite Qmult_0_l. exact Hp.
Qed.

Lemma Forall_list_insert (P : Q -> Prop) (l : list Q) (k : Z) (x : Q) :
  Forall P l -> P x -> Forall P (list_insert l k x).
Proof.
  intros F Hx. unfold list_insert.
  set (pos := Z.to_nat _).
  rewrite <- (firstn_skipn pos l) in F. apply Forall_app in F.
  destruct F as [F1 F2].
  apply Forall_app. split; [exact F1|]. constructor; assumption.
Qed.

Lemma player_dist_nonneg (ptd : Q) (len : nat) (k : Z) :
  0 <= ptd -> (2 <= len)%nat ->
  Forall (fun x => 0 <= x) (player_dist_of ptd len k).
Proof.
  intros Hp Hl. unfold player_dist_of.
  set (nd := (Z.of_nat len - 1)%Z).
  assert (Hn : (1 <= nd)%Z) by (unfold nd; lia).
  destruct (dist_fold_nonneg ptd nd (Z.to_nat nd - 1) Hp Hn) as [pd [E F]]; [lia|].
  assert (X : seq 0 (Z.to_nat nd) = seq 0 (Z.to_nat nd - 1) ++ [(Z.to_nat nd - 1)%nat]).
  { change ((Z.to_nat nd - 1)%nat) with (0 + (Z.to_nat nd - 1))%nat at 2.
    rewrite <- seq_S. f_equal. lia. }
  rewrite X, fold_left_app, E. simpl.
  assert (N : (Z.of_nat (Z.to_nat nd - 1) =? nd - 1)%Z = true) by (apply Z.eqb_eq; lia).
  rewrite N. simpl.
  apply Forall_list_insert; [|apply Qle_refl].
  apply Forall_app. split; [exact F|]. constructor; [|constructor].
  set (div := py_int (ptd / inject_Z nd)).
  assert (Hq : 0 <= ptd / inject_Z nd).
  { apply Qle_shift_div_l; [change 0 with (inject_Z 0); rewrite <- Zlt_Qlt; lia|].
    rewrite Qmult_0_l. exact Hp. }
  assert (D0 : (0 <= div)%Z).
  { unfold div. rewrite (py_int_nonneg _ Hq).
    rewrite <- (Qfloor_Z 0). apply Qfloor_resp_le. exact Hq. }
  assert (D1 : inject_Z div * inject_Z nd <= ptd).
  { unfold div. rewrite (py_int_nonneg _ Hq).
    apply Qle_trans with (ptd / inject_Z nd * inject_Z nd).
    - apply Qmult_le_compat_r; [apply Qfloor_le|].
      change 0 with (inject_Z 0). rewrite <- Zle_Qle. lia.
    - unfold Qdiv. rewrite <- Qmult_assoc, (Qmult_comm (/ inject_Z nd)).
      rewrite Qmult_inv_r, Qmult_1_r; [apply Qle_refl|].
      intro C. unfold Qeq in C. simpl in C. lia. }
  assert (D2 : inject_Z (Z.of_nat (Z.to_nat nd - 1) * div) <= ptd).
  { apply Qle_trans with (inject_Z div * inject_Z nd); [|exact D1].
    rewrite <- inject_Z_mult, <- Zle_Qle. nia. }
  apply (proj1 (Qle_minus_iff _ _)). exact D2.
Qed.

(** X18.  Seeding keeps counts non-negative when there is somebody to move.
    For a vector of at least two non-negative entries whose entry at
    [0 <= strategy_indx < n] is at least 1, the seeded vector has no
    negative entry, and no entry other than the designated one is
    lowered. *)
Theorem seed_vector_nonnegative (vec vec' : list Q) (strategy_indx : Z) :
  Forall (fun x => 0 <= x) vec ->
  (2 <= length vec)%nat ->
  (0 <= strategy_indx < Z.of_nat (length vec))%Z ->
  1 <= nth (Z.to_nat strategy_indx) vec 0 ->
  seed_vector vec strategy_indx = Ok vec' ->
  Forall (fun x => 0 <= x) vec' /\
  forall i, i <> Z.to_nat strategy_indx -> nth i vec 0 <= nth i vec' 0.
Proof.
  intros Hv Hl Hk H1 H.
  destruct (seed_vector_spec vec strategy_indx Hl Hk)
    as [vec2 [E [L [N1 [_ [No _]]]]]].
  rewrite E in H. inversion H; subst vec2. clear H.
  set (pos := Z.to_nat strategy_indx) in *.
  set (pd := player_dist_of (nth pos vec 0 - 1) (length vec) strategy_indx) in *.
  assert (Fpd : Forall (fun x => 0 <= x) pd).
  { apply player_dist_nonneg; [|exact Hl].
    apply (proj1 (Qle_minus_iff _ _)). exact H1. }
  assert (Hpd : forall i, 0 <= nth i pd 0).
  { intro i. destruct (Nat.lt_ge_cases i (length pd)) as [A|A].
    - rewrite Forall_forall in Fpd. apply Fpd. apply nth_In. exact A.
    - rewrite nth_overflow by lia. apply Qle_refl. }
  assert (Hvec : forall i, 0 <= nth i vec 0).
  { intro i. destruct (Nat.lt_ge_cases i (length vec)) as [A|A].
    - rewrite Forall_forall in Hv. apply Hv. apply nth_In. exact A.
    - rewrite nth_overflow by lia. apply Qle_refl. }
  split.
  - apply Forall_forall. intros x Hx.
    apply (In_nth _ _ 0) in Hx. destruct Hx as [i [Hi Ex]]. subst x.
    destruct (Nat.eq_dec i pos) as [->|Hne].
    + rewrite N1. discriminate.
    + rewrite (No i Hne).
      apply Qle_trans with (0 + 0); [discriminate|].
      apply Qplus_le_compat; auto.
  - intros i Hne. rewrite (No i Hne).
    apply Qle_trans with (nth i vec 0 + 0).
    + rewrite Qplus_0_r. apply Qle_refl.
    + apply Qplus_le_compat; [apply Qle_refl | apply Hpd].
Qed.

Lemma seed_vector_nonnegative_witness :
  seed_vector [3; 0; 4] 0 = Ok [1; 0 + 1; 4 + 1] /\
  Forall (fun x => 0 <= x) [1; 0 + 1; 4 + 1].
Proof.
  assert (Hv : Forall (fun x => 0 <= x) [3; 0; 4])
    by (repeat constructor; discriminate).
  assert (Hl : (2 <= length [3; 0; 4]%Q)%nat) by (simpl; lia).
  assert (Hk : (0 <= 0 < Z.of_nat (length [3; 0; 4]%Q))%Z) by (simpl; lia).
  assert (H1 : 1 <= nth (Z.to_nat 0) [3; 0; 4]%Q 0) by (simpl; discriminate).
  assert (E : seed_vector [3; 0; 4] 0 = Ok [1; 0 + 1; 4 + 1])
    by (vm_compute; reflexivity).
  split; [exact E|].
  exact (proj1 (seed_vector_nonnegative _ _ _ Hv Hl Hk H1 E)).
Defined.

(** When the designated strategy drew nobody, the seeding takes the
    individual from the last of the other strategies, whatever it holds. *)
Example seed_vector_negative_count :
  seed_vector [0; 5; 0] 0 = Ok [1; 5 + 0; 0 + -1].
Proof. vm_compute. reflexivity. Qed.
(** ** The driver, further *)

Section DriverFurther.

Variable rng : Type.
Variable np_random_uniform : nat -> rng -> result (list Q * rng).
Variable np_random_multinomial : Q -> nat -> rng -> result (list Q * rng).
Variable np_random_dirichlet : nat -> rng -> result (list Q * rng).

Hypothesis uniform_length :
  forall n g v g', np_random_uniform n g = Ok (v, g') -> length v = n.
Hypothesis multinomial_length :
  forall n_p n g v g', np_random_multinomial n_p n g = Ok (v, g') -> length v = n.
Hypothesis dirichlet_length :
  forall n g v g', np_random_dirichlet n g = Ok (v, g') -> length v = n.
Hypothesis multinomial_sum :
  forall n_p n g v g', np_random_multinomial n_p n g = Ok (v, g') -> fsum v == n_p.

Local Abbreviation distribution :=
  (distribution_for_player np_random_uniform np_random_multinomial
     np_random_dirichlet).
Local Abbreviation start :=
  (initial_state np_random_uniform np_random_multinomial np_random_dirichlet).
Local Abbreviation run_with :=
  (run np_random_uniform np_random_multinomial np_random_dirichlet).
Local Abbreviation simulate_with :=
  (simulate np_random_uniform np_random_multinomial np_random_dirichlet).

Lemma start_supplied_mapM (self : DynamicsSimulator) (st : list state)
  (fixation_probability : bool) (strategy_indx : Z) (g : rng) :
  start self (Some st) fixation_probability strategy_indx g
  = if (Z.of_nat (length st) =? number_groups self)%Z
    then st' <- mapM (validate_state self) st ;; Ok (st', g)
    else Raise AssertionError.
Proof.
  unfold initial_state.
  destruct (Z.eqb_spec (Z.of_nat (length st)) (number_groups self)) as [E|E];
    cbn [py_assert bind]; [|reflexivity].
  rewrite <- E, Nat2Z.id, validate_groups_all_mapM. reflexivity.
Qed.

(** X10.  A supplied start state is accepted exactly when it has one state
    per group and [validate_state] accepts the state of every group; the
    start state of the run is then the list of the validated states, in
    order, and the random generator has not been used. *)
Theorem start_state_adopted (self : DynamicsSimulator) (st : list state)
  (fixation_probability : bool) (strategy_indx : Z) (g : rng) :
  start self (Some st) fixation_probability strategy_indx g
  = if (Z.of_nat (length st) =? number_groups self)%Z
    then st' <- mapM (validate_state self) st ;; Ok (st', g)
    else Raise AssertionError.
Proof. exact (start_supplied_mapM self st fixation_probability strategy_indx g). Qed.

Lemma draw_state_valid (dist : Q -> nat -> rng -> result (list Q * rng)) :
  (forall n_p n_s g v g', dist n_p n_s g = Ok (v, g') ->
     length v = n_s /\ fsum v == n_p) ->
  forall n_ps n_ss g s g',
    draw_state dist n_ps n_ss g = Ok (s, g') ->
    validate_loop s n_ps n_ss = Ok s /\
    length s = Nat.min (length n_ps) (length n_ss).
Proof.
  intros Hd. induction n_ps as [|n_p n_ps IH]; intros n_ss g s g' H.
  - simpl in H. inversion H; subst. split; reflexivity.
  - destruct n_ss as [|n_s n_ss].
    + simpl in H. inversion H; subst. split; reflexivity.
    + cbn [draw_state] in H.
      apply bind_ok in H. destruct H as [[v g1] [Hv H]].
      apply bind_ok in H. destruct H as [[s1 g2] [Hs H]].
      simpl in H. inversion H; subst. clear H.
      destruct (Hd _ _ _ _ _ Hv) as [Lv Sv].
      destruct (IH _ _ _ _ Hs) as [V L]. simpl in V, L.
      split; [|simpl; lia].
      cbn [validate_loop]. rewrite validate_entry_eq. unfold entry_ok. simpl.
      rewrite (Qeq_eq_bool _ _ Sv), Lv, Nat.eqb_refl. cbn [andb bind].
      rewrite V. reflexivity.
Qed.

(** X11.  In the finite multinomial mode, for a configuration that gives
    every player type a total and a strategy count, the start state that
    [simulate] draws has one state per group, and [validate_state] returns
    each of them unchanged. *)
Theorem drawn_state_validates (self : DynamicsSimulator) (strategy_indx : Z)
  (g g' : rng) (st : list state) :
  well_formed_config self ->
  infinite_pop_size self = false -> uniDist self = false ->
  start self None false strategy_indx g = Ok (st, g') ->
  length st = Z.to_nat (number_groups self) /\
  Forall (fun grp => validate_state self grp = Ok grp) st.
Proof.
  intros [W1 W2] Hinf Huni H. unfold initial_state in H.
  apply bind_ok in H. destruct H as [[st0 g1] [Hd H]].
  inversion H; subst. clear H.
  eapply draw_groups_spec in Hd; [exact Hd|].
  intros g2 s g3 Hs.
  destruct (draw_state_valid (distribution self)) with
    (n_ps := num_players self) (n_ss := num_strats (pm self))
    (g := g2) (s := s) (g' := g3) as [V L]; auto.
  - intros n_p n_s g4 v g5 Hv. unfold distribution_for_player in Hv.
    rewrite Hinf, Huni in Hv. simpl in Hv. split.
    + eapply multinomial_length; eauto.
    + eapply multinomial_sum; eauto.
  - unfold validate_state. rewrite L, W1, W2, Nat.min_id, Nat.eqb_refl.
    cbn [py_assert bind]. exact V.
Qed.

Lemma draw_state_shape (dist : Q -> nat -> rng -> result (list Q * rng)) :
  (forall n_p n_s g v g', dist n_p n_s g = Ok (v, g') -> length v = n_s) ->
  forall n_ps n_ss g s g',
    draw_state dist n_ps n_ss g = Ok (s, g') ->
    length s = Nat.min (length n_ps) (length n_ss) /\
    forall t vec, nth_error s t = Some vec ->
      vkind vec = NdArray /\ nth_error n_ss t = Some (length (vdata vec)).
Proof.
  intros Hd. induction n_ps as [|n_p n_ps IH]; intros n_ss g s g' H.
  - simpl in H. inversion H; subst. split; [reflexivity|].
    intros [|t] vec Ht; discriminate.
  - destruct n_ss as [|n_s n_ss].
    + simpl in H. inversion H; subst. split; [reflexivity|].
      intros [|t] vec Ht; discriminate.
    + cbn [draw_state] in H.
      apply bind_ok in H. destruct H as [[v g1] [Hv H]].
      apply bind_ok in H. destruct H as [[s1 g2] [Hs H]].
      simpl in H. inversion H; subst. clear H.
      destruct (IH _ _ _ _ Hs) as [L N]. simpl in L.
      split; [simpl; lia|].
      intros [|t] vec Ht; simpl in Ht.
      * inversion Ht; subst. simpl. split; [reflexivity|].
        rewrite (Hd _ _ _ _ _ Hv). reflexivity.
      * simpl. apply N. exact Ht.
Qed.

Lemma fixation_seeding_shape (st st' : list state) (strategy_indx : Z)
  (P : state -> Prop) :
  (forall grp v0 vec,
     P grp -> nth_error grp 0 = Some v0 ->
     length vec = length (vdata v0) ->
     forall grp', list_set grp 0 {| vkind := vkind v0; vdata := vec |} = Ok grp' ->
     P grp') ->
  Forall P st ->
  fixation_seeding st strategy_indx = Ok st' ->
  length st' = length st /\ Forall P st'.
Proof.
  intros HP F H. unfold fixation_seeding in H.
  apply bind_ok in H. destruct H as [group0 [Hg H]].
  apply bind_ok in H. destruct H as [v0 [Hv H]].
  apply bind_ok in H. destruct H as [vec [Hs H]].
  apply bind_ok in H. destruct H as [group0' [Hs0 H]].
  apply list_get_ok in Hg, Hv.
  destruct (seed_vector_cases (vdata v0) strategy_indx) as [_ [_ C]].
  destruct (C _ Hs) as [Lv _].
  destruct (list_set_ok _ _ _ _ H) as [_ [L [N0 No]]].
  split; [exact L|].
  rewrite Forall_forall in F. apply Forall_forall. intros grp Hin.
  apply In_nth_error in Hin. destruct Hin as [j Hj].
  destruct (Nat.eq_dec j 0) as [->|Hne].
  - rewrite N0 in Hj. inversion Hj; subst grp.
    apply (HP group0 v0 vec); auto.
    apply F. eapply nth_error_In; eauto.
  - rewrite (No j Hne) in Hj. apply F. eapply nth_error_In; eauto.
Qed.

(** X19.  The shape of a drawn start state.  When no start state is
    supplied, in every sampling mode and with or without fixation seeding,
    the start state holds one state per group; each state pairs
    [num_players] with [pm.num_strats] and so has as many vectors as the
    shorter of the two, and its vector for player type [t] is a numpy array
    with as many entries as that type has strategies. *)
Theorem drawn_state_shape (self : DynamicsSimulator)
  (fixation_probability : bool) (strategy_indx : Z) (g g' : rng)
  (st : list state) :
  start self None fixation_probability strategy_indx g = Ok (st, g') ->
  length st = Z.to_nat (number_groups self) /\
  forall grp, In grp st ->
    length grp = Nat.min (length (num_players self))
                         (length (num_strats (pm self))) /\
    forall t vec, nth_error grp t = Some vec ->
      vkind vec = NdArray /\
      nth_error (num_strats (pm self)) t = Some (length (vdata vec)).
Proof.
  intro H. unfold initial_state in H.
  apply bind_ok in H. destruct H as [[st0 g1] [Hd H]].
  set (P := fun grp : state =>
    length grp = Nat.min (length (num_players self))
                         (length (num_strats (pm self))) /\
    forall t vec, nth_error grp t = Some vec ->
      vkind vec = NdArray /\
      nth_error (num_strats (pm self)) t = Some (length (vdata vec))).
  assert (D : length st0 = Z.to_nat (number_groups self) /\ Forall P st0).
  { eapply draw_groups_spec; [|exact Hd].
    intros g2 s g3 Hs.
    apply (draw_state_shape (distribution self)) with (g := g2) (g' := g3); auto.
    intros n_p n_s g4 v g5 Hv.
    exact (distribution_length rng np_random_uniform np_random_multinomial
             np_random_dirichlet uniform_length multinomial_length
             dirichlet_length self n_p n_s g4 g5 v Hv). }
  destruct D as [L F].
  assert (R : length st = Z.to_nat (number_groups self) /\ Forall P st).
  { destruct fixation_probability; cbn [fst snd] in H.
    - apply bind_ok in H. destruct H as [u [_ H]].
      apply bind_ok in H. destruct H as [st1 [Hs H]].
      inversion H; subst st1 g'. clear H.
      destruct (fixation_seeding_shape st0 st strategy_indx P) as [L1 F1]; auto.
      + intros grp v0 vec [Lg Ng] Hv0 Lv grp' Hset.
        destruct (list_set_ok _ _ _ _ Hset) as [_ [Lg' [N0 No]]].
        split; [rewrite Lg'; exact Lg|].
        intros t v Ht. destruct (Nat.eq_dec t 0) as [->|Hne].
        * rewrite N0 in Ht. inversion Ht; subst v. simpl.
          destruct (Ng 0%nat v0 Hv0) as [K S0]. split; [exact K|].
          rewrite Lv. exact S0.
        * rewrite (No t Hne) in Ht. apply Ng. exact Ht.
      + split; [rewrite L1; exact L | exact F1].
    - inversion H; subst. split; assumption. }
  destruct R as [L' F']. split; [exact L'|].
  rewrite Forall_forall in F'. exact F'.
Qed.

Section Transition.

Variable next_generation :
  list state -> bool -> Q -> rng -> result ((list state * list state) * rng).

Lemma generations_chain (self : DynamicsSimulator) (n : nat) :
  forall st strategies payoffs g strategies' payoffs' g' pre,
    generations next_generation self n st strategies payoffs g
    = Ok ((strategies', payoffs'), g') ->
    strategies = pre ++ [st] -> length payoffs = length strategies ->
    forall i, (length pre <= i < length pre + n)%nat ->
      exists a b pb,
        nth_error strategies' i = Some a /\
        nth_error strategies' (S i) = Some b /\
        nth_error payoffs' (S i) = Some pb /\
        follows next_generation self a b pb.
Proof.
  induction n as [|n IH]; intros st S0 P0 g S' P' g' pre H ES LP i Hi; [lia|].
  cbn [generations] in H.
  apply bind_ok in H. destruct H as [[[r p] g1] [Hn H]].
  apply bind_ok in H. destruct H as [rs [Hrs H]].
  apply bind_ok in H. destruct H as [ps [Hps H]].
  apply bind_ok in H. destruct H as [stv [Hv H]].
  cbn [fst snd] in *.
  pose proof (generations_spec _ next_generation self _ _ _ _ _ _ _ _ H)
    as [ns [np [E1 [L1 [E2 [L2 _]]]]]].
  destruct (Nat.eq_dec i (length pre)) as [Ei|Ei].
  - subst i. exists st, stv, (np_object_array ps).
    subst S'. subst P'. subst S0.
    rewrite length_app in LP. simpl in LP.
    repeat split.
    + rewrite <- !app_assoc. rewrite nth_error_app2 by lia.
      rewrite Nat.sub_diag. reflexivity.
    + rewrite <- !app_assoc. rewrite nth_error_app2 by lia.
      replace (S (length pre) - length pre)%nat with 1%nat by lia. reflexivity.
    + rewrite <- app_assoc. rewrite nth_error_app2 by lia.
      replace (S (length pre) - length P0)%nat with 0%nat by lia. reflexivity.
    + exists g, r, p, g1, rs, ps. repeat split; auto.
      assert (Lr : length (np_object_array rs) = Z.to_nat (number_groups self)).
      { rewrite length_np_object_array. eapply mapM_seq_length; eauto. }
      rewrite <- Lr in Hv. rewrite validate_groups_all_mapM in Hv. exact Hv.
  - apply (IH stv (S0 ++ [stv]) (P0 ++ [np_object_array ps]) g1 S' P' g'
              (pre ++ [st])); auto.
    + subst S0. reflexivity.
    + rewrite !length_app. simpl. lia.
    + rewrite length_app. simpl. lia.
Qed.

Lemma run_chain (self : DynamicsSimulator) (num_gens : nat)
  (start_state : option (list state)) (fixation_probability : bool)
  (strategy_indx : Z) (g g' : rng) (strategies payoffs : list (list state)) :
  run_with next_generation self num_gens start_state fixation_probability
    strategy_indx g = Ok ((strategies, payoffs), g') ->
  forall i, (i < num_gens)%nat ->
    exists a b pb,
      nth_error strategies i = Some a /\
      nth_error strategies (S i) = Some b /\
      nth_error payoffs (S i) = Some pb /\
      follows next_generation self a b pb.
Proof.
  unfold run. intros H i Hi.
  apply bind_ok in H. destruct H as [[st0 g0] [_ H]].
  apply bind_ok in H. destruct H as [[p0 g1] [_ H]].
  cbn [fst snd] in H.
  apply (generations_chain self num_gens st0 [st0] [p0] g1 strategies payoffs g' []
           H eq_refl eq_refl i).
  simpl. lia.
Qed.

(** X12.  The run is a chain of transitions.  In a run that completes, for
    every generation [i < num_gens], the states stored for generation
    [i + 1] are those the transition rule returned for the states stored
    for generation [i], cut to the number of groups and validated, and the
    payoffs stored for generation [i + 1] are those it returned with
    them. *)
Theorem run_is_chain (self : DynamicsSimulator) (num_gens : nat)
  (start_state : option (list state)) (fixation_probability : bool)
  (strategy_indx : Z) (g g' : rng) (strategies payoffs : list (list state)) :
  run_with next_generation self num_gens start_state fixation_probability
    strategy_indx g = Ok ((strategies, payoffs), g') ->
  forall i, (i < num_gens)%nat ->
    exists a b pb,
      nth_error strategies i = Some a /\
      nth_error strategies (S i) = Some b /\
      nth_error payoffs (S i) = Some pb /\
      follows next_generation self a b pb.
Proof.
  exact (run_chain self num_gens start_state fixation_probability strategy_indx
           g g' strategies payoffs).
Qed.

Lemma run_states_validated_lemma (self : DynamicsSimulator) (num_gens : nat)
  (start_state : option (list state)) (fixation_probability : bool)
  (strategy_indx : Z) (g g' : rng) (strategies payoffs : list (list state)) :
  run_with next_generation self num_gens start_state fixation_probability
    strategy_indx g = Ok ((strategies, payoffs), g') ->
  forall i groups,
    ((1 <= i)%nat \/ start_state <> None) ->
    nth_error strategies i = Some groups ->
    length groups = Z.to_nat (number_groups self) /\
    Forall (validated self) groups.
Proof.
  intros H i groups Hc Hg.
  destruct (run_spec _ _ _ _ next_generation _ _ _ _ _ _ _ _ _ H)
    as [st0 [g0 [rest [Hs [E [L _]]]]]].
  destruct i as [|i].
  - destruct Hc as [Hc|Hc]; [lia|].
    destruct start_state as [st|]; [|congruence].
    subst strategies. simpl in Hg. inversion Hg; subst groups.
    rewrite start_supplied_mapM in Hs.
    destruct (Z.eqb_spec (Z.of_nat (length st)) (number_groups self)) as [El|El];
      [|discriminate].
    apply bind_ok in Hs. destruct Hs as [st' [Hm Hs]]. inversion Hs; subst.
    destruct (mapM_validated _ _ _ Hm) as [Lm Fm]. split; [lia | exact Fm].
  - assert (Hi : (i < num_gens)%nat).
    { subst strategies. simpl in Hg.
      rewrite <- L. apply nth_error_Some. congruence. }
    destruct (run_chain _ _ _ _ _ _ _ _ _ H i Hi)
      as [a [b [pb [_ [Hb [_ [g1 [r [p [g2 [rs [ps [_ [Hrs [_ [Hv _]]]]]]]]]]]]]]]].
    rewrite Hg in Hb. inversion Hb; subst b.
    destruct (mapM_validated _ _ _ Hv) as [Lm Fm].
    rewrite length_np_object_array, (mapM_seq_length _ _ _ _ Hrs) in Lm.
    split; assumption.
Qed.

(** X13.  The shape of the stored states.  In a run that completes, every
    generation after the initial one, and the initial one when the start
    state was supplied, holds one state per group; every such state has one
    vector per player type, and every vector of a type with a configured
    total and strategy count is a numpy array with that many entries. *)
Theorem run_states_shape (self : DynamicsSimulator) (num_gens : nat)
  (start_state : option (list state)) (fixation_probability : bool)
  (strategy_indx : Z) (g g' : rng) (strategies payoffs : list (list state)) :
  run_with next_generation self num_gens start_state fixation_probability
    strategy_indx g = Ok ((strategies, payoffs), g') ->
  forall i groups,
    ((1 <= i)%nat \/ start_state <> None) ->
    nth_error strategies i = Some groups ->
    length groups = Z.to_nat (number_groups self) /\
    forall grp, In grp groups ->
      length grp = num_player_types (pm self) /\
      forall t vec total n,
        nth_error grp t = Some vec ->
        nth_error (num_players self) t = Some total ->
        nth_error (num_strats (pm self)) t = Some n ->
        vkind vec = NdArray /\ length (vdata vec) = n.
Proof.
  intros H i groups Hc Hg.
  destruct (run_states_validated_lemma _ _ _ _ _ _ _ _ _ H i groups Hc Hg) as [L F].
  split; [exact L|]. intros grp Hin.
  rewrite Forall_forall in F.
  destruct (validated_shape self grp (F grp Hin)) as [Lg A].
  split; [exact Lg|]. intros t vec total n H1 H2 H3.
  destruct (A t vec total n H1 H2 H3) as [K [_ Ln]]. split; assumption.
Qed.

Lemma run_payoffs_head (self : DynamicsSimulator) (num_gens : nat)
  (start_state : option (list state)) (fixation_probability : bool)
  (strategy_indx : Z) (g g' : rng) (strategies payoffs : list (list state)) :
  run_with next_generation self num_gens start_state fixation_probability
    strategy_indx g = Ok ((strategies, payoffs), g') ->
  exists p0 g0 g1,
    initial_payoffs np_random_uniform self g0 = Ok (p0, g1) /\
    nth_error payoffs 0 = Some p0.
Proof.
  unfold run. intro H.
  apply bind_ok in H. destruct H as [[st0 g0] [_ H]].
  apply bind_ok in H. destruct H as [[p0 g1] [Hp H]].
  cbn [fst snd] in *.
  apply generations_spec in H. destruct H as [ns [np [_ [_ [E2 _]]]]].
  exists p0, g0, g1. split; [exact Hp|]. subst payoffs. reflexivity.
Qed.

(** X14.  The payoffs of generation 0.  In a run that completes, the
    payoffs stored for generation 0 hold one entry per group, and in it,
    for every player type, a vector with one entry per strategy of that
    type, all of them zero. *)
Theorem initial_payoffs_zero (self : DynamicsSimulator) (num_gens : nat)
  (start_state : option (list state)) (fixation_probability : bool)
  (strategy_indx : Z) (g g' : rng) (strategies payoffs : list (list state)) :
  run_with next_generation self num_gens start_state fixation_probability
    strategy_indx g = Ok ((strategies, payoffs), g') ->
  exists p0,
    nth_error payoffs 0 = Some p0 /\
    length p0 = Z.to_nat (number_groups self) /\
    forall grp t vec, In grp p0 -> nth_error grp t = Some vec ->
      exists n_s, nth_error (num_strats (pm self)) t = Some n_s /\
                  length (vdata vec) = n_s /\
                  Forall (fun x => x == 0) (vdata vec).
Proof.
  intro H. destruct (run_payoffs_head _ _ _ _ _ _ _ _ _ H) as [p0 [g0 [g1 [Hp Hn]]]].
  exists p0. split; [exact Hn|].
  unfold initial_payoffs in Hp.
  eapply (draw_groups_spec _
            (fun s => forall t vec, nth_error s t = Some vec ->
               exists n_s, nth_error (num_strats (pm self)) t = Some n_s /\
                           length (vdata vec) = n_s /\
                           Forall (fun x => x == 0) (vdata vec))) in Hp.
  - destruct Hp as [L F]. split; [exact L|].
    intros grp t vec Hin Ht. rewrite Forall_forall in F. eapply F; eauto.
  - intros g2 s g3 Hs t vec Ht.
    destruct (draw_state_spec _ (fun _ n_s v => length v = n_s /\ Forall (fun x => x == 0) v)
                (zero_payoff np_random_uniform)) with
      (n_ps := num_players self) (n_ss := num_strats (pm self))
      (g := g2) (s := s) (g' := g3) (t := t) (vec := vec)
      as [n_p [n_s [_ [E2 [E3 E4]]]]]; auto.
    + intros n_p n_s g4 v g5 Hv. unfold zero_payoff in Hv.
      apply bind_ok in Hv. destruct Hv as [[u g6] [Hu Hv]].
      simpl in Hv. inversion Hv; subst. split.
      * rewrite length_map. eapply uniform_length; eauto.
      * apply Forall_map. apply Forall_forall. intros x _. ring.
    + exists n_s. auto.
Qed.

Lemma reduce_entry (self : DynamicsSimulator) (num_gens : nat)
  (hist : list (list state)) (tot : list (list npval)) :
  reduce self num_gens hist = Ok tot ->
  forall k traj i y,
    nth_error tot k = Some traj -> nth_error traj i = Some y ->
    (k < num_player_types (pm self))%nat /\ (i < num_gens)%nat /\
    group_mean self hist k i = Ok y.
Proof.
  unfold reduce. intros Hr k traj i y Hk Hi.
  assert (Hlt : (k < num_player_types (pm self))%nat).
  { rewrite <- (mapM_seq_length _ _ _ _ Hr). apply nth_error_Some. congruence. }
  assert (Ex : nth_error (seq 0 (num_player_types (pm self))) k = Some k).
  { rewrite nth_error_seq. apply Nat.ltb_lt in Hlt. rewrite Hlt. reflexivity. }
  destruct (mapM_nth _ _ _ Hr k k Ex) as [y0 [Hy Hm]].
  rewrite Hk in Hy. inversion Hy; subst y0.
  assert (Hi' : (i < num_gens)%nat).
  { rewrite <- (mapM_seq_length _ _ _ _ Hm). apply nth_error_Some. congruence. }
  assert (Ei : nth_error (seq 0 num_gens) i = Some i).
  { rewrite nth_error_seq. apply Nat.ltb_lt in Hi'. rewrite Hi'. reflexivity. }
  destruct (mapM_nth _ _ _ Hm i i Ei) as [z [Hz Hg]].
  rewrite Hi in Hz. inversion Hz; subst z. auto.
Qed.

(** X15.  The returned states are means over the groups.  For a
    configuration that gives every player type a total and a strategy
    count, with at least one group, every entry that [simulate] returns for
    a generation after the initial one (or for the initial one when the
    start state was supplied) is an array with one value per strategy of
    its player type, and each value is the sum over the groups of the
    stored values at that generation, type and strategy, divided by the
    number of groups. *)
Theorem simulate_returns_means (self : DynamicsSimulator) (num_gens : nat)
  (start_state : option (list state)) (fixation_probability : bool)
  (strategy_indx : Z) (g g' : rng)
  (strategies_total payoffs_total : list (list npval)) :
  well_formed_config self ->
  (1 <= number_groups self)%Z ->
  simulate_with next_generation self num_gens start_state fixation_probability
    strategy_indx g = Ok ((strategies_total, payoffs_total), g') ->
  exists strategies payoffs,
    run_with next_generation self num_gens start_state fixation_probability
      strategy_indx g = Ok ((strategies, payoffs), g') /\
    forall k traj i y,
      ((1 <= i)%nat \/ start_state <> None) ->
      nth_error strategies_total k = Some traj ->
      nth_error traj i = Some y ->
      exists gen m,
        nth_error strategies i = Some gen /\ y = Array m /\
        nth_error (num_strats (pm self)) k = Some (length m) /\
        forall s, (s < length m)%nat ->
          nth s m 0 ==
          fsum (map (fun j => raw_value gen j k s)
                    (seq 0 (Z.to_nat (number_groups self))))
          / inject_Z (number_groups self).
Proof.
  intros [W1 W2] HG H. unfold simulate in H.
  apply bind_ok in H. destruct H as [[[strategies payoffs] g1] [Hrun H]].
  apply bind_ok in H. destruct H as [stot [Hs H]].
  apply bind_ok in H. destruct H as [ptot [Hp H]].
  simpl in H. inversion H; subst. clear H. simpl in Hs.
  exists strategies, payoffs. split; [exact Hrun|].
  intros k traj i y Hc Hk Hi.
  destruct (reduce_entry _ _ _ _ Hs k traj i y Hk Hi) as [Hkt [Hin Hgm]].
  destruct (run_spec _ _ _ _ next_generation _ _ _ _ _ _ _ _ _ Hrun)
    as [st0 [g0 [rest [_ [E [L _]]]]]].
  destruct (nth_error strategies i) as [gen|] eqn:Eg.
  2:{ apply nth_error_None in Eg. subst strategies. simpl in Eg. lia. }
  destruct (run_states_validated_lemma _ _ _ _ _ _ _ _ _ Hrun i gen Hc Eg) as [Lg Fg].
  destruct (nth_error (num_strats (pm self)) k) as [n|] eqn:En.
  2:{ apply nth_error_None in En. lia. }
  destruct (nth_error (num_players self) k) as [total|] eqn:Et.
  2:{ apply nth_error_None in Et. lia. }
  destruct (group_mean_is_mean self strategies gen k i n HG Eg) as [m [Hm [Lm Vm]]].
  { intros j Hj.
    destruct (nth_error gen j) as [grp|] eqn:Ej.
    2:{ apply nth_error_None in Ej. lia. }
    rewrite Forall_forall in Fg.
    destruct (validated_shape self grp (Fg grp (nth_error_In _ _ Ej))) as [Lgrp A].
    destruct (nth_error grp k) as [vec|] eqn:Ev.
    2:{ apply nth_error_None in Ev. lia. }
    exists grp, vec. repeat split; auto.
    destruct (A k vec total n Ev Et En) as [_ [_ Ln]]. exact Ln. }
  rewrite Hm in Hgm. inversion Hgm; subst y.
  exists gen, m. split; [reflexivity|]. split; [reflexivity|].
  split; [rewrite Lm; reflexivity|].
  intros s Hs'. apply Vm. lia.
Qed.

(** X16.  With no generation to run, [simulate] does not call the
    transition rule: for [num_gens = 0] the result is the same for every
    transition rule, and when [simulate] returns, it returns one empty
    trajectory per player type, for the states and for the payoffs. *)
Theorem simulate_no_generations (self : DynamicsSimulator)
  (start_state : option (list state)) (fixation_probability : bool)
  (strategy_indx : Z) (g : rng) :
  (forall other,
     simulate_with next_generation self 0 start_state fixation_probability
       strategy_indx g
     = simulate_with other self 0 start_state fixation_probability
         strategy_indx g) /\
  (forall strategies_total payoffs_total g',
     simulate_with next_generation self 0 start_state fixation_probability
       strategy_indx g = Ok ((strategies_total, payoffs_total), g') ->
     strategies_total = repeat [] (num_player_types (pm self)) /\
     payoffs_total = repeat [] (num_player_types (pm self))).
Proof.
  split; [intro other; reflexivity|].
  intros stot ptot g' H. unfold simulate in H.
  apply bind_ok in H. destruct H as [h [_ H]].
  assert (R : forall hist, reduce self 0 hist
                           = Ok (repeat [] (num_player_types (pm self)))).
  { intro hist. unfold reduce. simpl.
    rewrite (mapM_ext_ok _ (fun _ => @nil npval)) by reflexivity.
    f_equal. generalize 0%nat.
    induction (num_player_types (pm self)) as [|n IH]; intro a; simpl;
      [reflexivity | f_equal; apply IH]. }
  rewrite !R in H. simpl in H. inversion H. auto.
Qed.

End Transition.

(** X17.  The transition rule of the base class returns two empty lists;
    with it, as soon as the start state and the initial payoffs are built,
    there is at least one group and at least one generation to run,
    [simulate] raises [IndexError] at the first generation. *)
Theorem base_class_raises (self : DynamicsSimulator) (num_gens : nat)
  (start_state : option (list state)) (fixation_probability : bool)
  (strategy_indx : Z) (g g0 g1 : rng) (st0 p0 : list state) :
  start self start_state fixation_probability strategy_indx g = Ok (st0, g0) ->
  initial_payoffs np_random_uniform self g0 = Ok (p0, g1) ->
  (1 <= number_groups self)%Z -> (1 <= num_gens)%nat ->
  simulate_with base_next_generation self num_gens start_state
    fixation_probability strategy_indx g = Raise IndexError.
Proof.
  intros Hs Hp HG Hn. unfold simulate, run. rewrite Hs. cbn [bind fst snd].
  rewrite Hp. cbn [bind fst snd].
  destruct num_gens as [|n]; [lia|].
  cbn [generations]. unfold base_next_generation. cbn [bind fst snd].
  destruct (Z.to_nat (number_groups self)) as [|m] eqn:E; [lia|].
  reflexivity.
Qed.

End DriverFurther.

(** ** The driver, further, on concrete runs *)

Lemma drawn_state_validates_witness :
  let self := example_self (example_pm 2 [2; 2]%nat) [2; 1] 2 in
  well_formed_config self /\
  initial_state det_uniform det_multinomial det_dirichlet self None false 0 tt
  = Ok ([[ndarray [2; 0]; ndarray [1; 0]]; [ndarray [2; 0]; ndarray [1; 0]]], tt) /\
  length [[ndarray [2; 0]; ndarray [1; 0]]; [ndarray [2; 0]; ndarray [1; 0]]]
  = Z.to_nat (number_groups self) /\
  Forall (fun grp => validate_state self grp = Ok grp)
    [[ndarray [2; 0]; ndarray [1; 0]]; [ndarray [2; 0]; ndarray [1; 0]]].
Proof.
  intro self.
  assert (W : well_formed_config self) by (split; reflexivity).
  assert (E : initial_state det_uniform det_multinomial det_dirichlet self None
                false 0 tt
              = Ok ([[ndarray [2; 0]; ndarray [1; 0]];
                     [ndarray [2; 0]; ndarray [1; 0]]], tt))
    by (vm_compute; reflexivity).
  split; [exact W|]. split; [exact E|].
  exact (drawn_state_validates unit det_uniform det_multinomial det_dirichlet
           det_multinomial_length det_multinomial_sum self 0%Z tt tt _ W
           eq_refl eq_refl E).
Defined.

Lemma run_is_chain_witness :
  let self := example_self (example_pm 1 [2]%nat) [3] 1 in
  exists strategies payoffs,
    run det_uniform det_multinomial det_dirichlet stay self 2
      (Some [[ndarray [1; 2]]]) false 0 tt = Ok ((strategies, payoffs), tt) /\
    (1 < 2)%nat /\
    exists a b pb,
      nth_error strategies 1 = Some a /\
      nth_error strategies 2 = Some b /\
      nth_error payoffs 2 = Some pb /\
      follows stay self a b pb.
Proof.
  intro self.
  destruct (run det_uniform det_multinomial det_dirichlet stay self 2
              (Some [[ndarray [1; 2]]]) false 0 tt)
    as [[[strategies payoffs] []]|e] eqn:Hr; [|vm_compute in Hr; discriminate].
  exists strategies, payoffs. split; [reflexivity|].
  assert (Hi : (1 < 2)%nat) by lia.
  split; [exact Hi|].
  exact (run_is_chain unit det_uniform det_multinomial det_dirichlet stay self 2
           (Some [[ndarray [1; 2]]]) false 0%Z tt tt strategies payoffs Hr 1%nat Hi).
Defined.

Lemma run_states_shape_witness :
  let self := example_self (example_pm 1 [2]%nat) [3] 1 in
  exists strategies payoffs groups,
    run det_uniform det_multinomial det_dirichlet stay self 2
      (Some [[ {| vkind := PyList; vdata := [1; 2] |} ]]) false 0 tt
    = Ok ((strategies, payoffs), tt) /\
    nth_error strategies 0 = Some groups /\
    groups = [[ndarray [1; 2]]] /\
    length groups = Z.to_nat (number_groups self) /\
    forall grp, In grp groups ->
      length grp = num_player_types (pm self) /\
      forall t vec total n,
        nth_error grp t = Some vec ->
        nth_error (num_players self) t = Some total ->
        nth_error (num_strats (pm self)) t = Some n ->
        vkind vec = NdArray /\ length (vdata vec) = n.
Proof.
  intro self.
  destruct (run det_uniform det_multinomial det_dirichlet stay self 2
              (Some [[ {| vkind := PyList; vdata := [1; 2] |} ]]) false 0 tt)
    as [[[strategies payoffs] []]|e] eqn:Hr; [|vm_compute in Hr; discriminate].
  destruct (nth_error strategies 0) as [groups|] eqn:Hg;
    [|vm_compute in Hr; inversion Hr; subst; discriminate].
  exists strategies, payoffs, groups. split; [reflexivity|]. split; [exact Hg|].
  split; [vm_compute in Hr; inversion Hr; subst; simpl in Hg; inversion Hg; reflexivity|].
  apply (run_states_shape unit det_uniform det_multinomial det_dirichlet stay self 2
           (Some [[ {| vkind := PyList; vdata := [1; 2] |} ]]) false 0%Z tt tt
           strategies payoffs Hr 0%nat groups).
  - right. discriminate.
  - exact Hg.
Defined.

Lemma initial_payoffs_zero_witness :
  let self := example_self (example_pm 1 [2]%nat) [3] 1 in
  exists strategies payoffs,
    run det_uniform det_multinomial det_dirichlet stay self 1 None false 0 tt
    = Ok ((strategies, payoffs), tt) /\
    exists p0,
      nth_error payoffs 0 = Some p0 /\
      length p0 = Z.to_nat (number_groups self) /\
      forall grp t vec, In grp p0 -> nth_error grp t = Some vec ->
        exists n_s, nth_error (num_strats (pm self)) t = Some n_s /\
                    length (vdata vec) = n_s /\
                    Forall (fun x => x == 0) (vdata vec).
Proof.
  intro self.
  destruct (run det_uniform det_multinomial det_dirichlet stay self 1 None
              false 0 tt)
    as [[[strategies payoffs] []]|e] eqn:Hr; [|vm_compute in Hr; discriminate].
  exists strategies, payoffs. split; [reflexivity|].
  exact (initial_payoffs_zero unit det_uniform det_multinomial det_dirichlet
           det_uniform_length stay self 1 None false 0%Z tt tt strategies payoffs Hr).
Defined.

Lemma simulate_returns_means_witness :
  let self := example_self (example_pm 1 [2]%nat) [3] 2 in
  let start_state := Some [[ndarray [1; 2]]; [ndarray [3; 0]]] in
  exists strategies_total payoffs_total,
    well_formed_config self /\ (1 <= number_groups self)%Z /\
    simulate det_uniform det_multinomial det_dirichlet stay self 1 start_state
      false 0 tt = Ok ((strategies_total, payoffs_total), tt) /\
    strategies_total = [[Array [4 # 2; 2 # 2]]] /\
    exists strategies payoffs,
      run det_uniform det_multinomial det_dirichlet stay self 1 start_state
        false 0 tt = Ok ((strategies, payoffs), tt) /\
      forall k traj i y,
        ((1 <= i)%nat \/ start_state <> None) ->
        nth_error strategies_total k = Some traj ->
        nth_error traj i = Some y ->
        exists gen m,
          nth_error strategies i = Some gen /\ y = Array m /\
          nth_error (num_strats (pm self)) k = Some (length m) /\
          forall s, (s < length m)%nat ->
            nth s m 0 ==
            fsum (map (fun j => raw_value gen j k s)
                      (seq 0 (Z.to_nat (number_groups self))))
            / inject_Z (number_groups self).
Proof.
  intros self start_state.
  destruct (simulate det_uniform det_multinomial det_dirichlet stay self 1
              start_state false 0 tt) as [[[stot ptot] []]|e] eqn:Hs;
    [|vm_compute in Hs; discriminate].
  exists stot, ptot.
  assert (W : well_formed_config self) by (split; reflexivity).
  assert (HG : (1 <= number_groups self)%Z) by (simpl; lia).
  split; [exact W|]. split; [exact HG|]. split; [reflexivity|].
  split; [vm_compute in Hs; inversion Hs; reflexivity|].
  exact (simulate_returns_means unit det_uniform det_multinomial det_dirichlet
           stay self 1 start_state false 0%Z tt tt stot ptot W HG Hs).
Defined.

Lemma base_class_raises_witness :
  let self := example_self (example_pm 1 [2]%nat) [3] 1 in
  initial_state det_uniform det_multinomial det_dirichlet self
    (Some [[ndarray [1; 2]]]) false 0 tt = Ok ([[ndarray [1; 2]]], tt) /\
  initial_payoffs det_uniform self tt
  = Ok ([[ndarray [0 * (1 # 2); 0 * (1 # 2)]]], tt) /\
  (1 <= number_groups self)%Z /\ (1 <= 3)%nat /\
  simulate det_uniform det_multinomial det_dirichlet base_next_generation self 3
    (Some [[ndarray [1; 2]]]) false 0 tt = Raise IndexError.
Proof.
  intro self.
  assert (H1 : initial_state det_uniform det_multinomial det_dirichlet self
                 (Some [[ndarray [1; 2]]]) false 0 tt = Ok ([[ndarray [1; 2]]], tt))
    by (vm_compute; reflexivity).
  assert (H2 : initial_payoffs det_uniform self tt
               = Ok ([[ndarray [0 * (1 # 2); 0 * (1 # 2)]]], tt))
    by (vm_compute; reflexivity).
  assert (H3 : (1 <= number_groups self)%Z) by (simpl; lia).
  assert (H4 : (1 <= 3)%nat) by lia.
  split; [exact H1|]. split; [exact H2|]. split; [exact H3|]. split; [exact H4|].
  exact (base_class_raises unit det_uniform det_multinomial det_dirichlet self 3
           (Some [[ndarray [1; 2]]]) false 0%Z tt tt tt _ _ H1 H2 H3 H4).
Defined.

Lemma drawn_state_shape_witness :
  let self := example_self (example_pm 2 [2; 2]%nat) [2; 1] 1 in
  initial_state det_uniform det_multinomial det_dirichlet self None true 0 tt
  = Ok ([[ndarray [1; 1]; ndarray [1; 0]]], tt) /\
  length [[ndarray [1; 1]; ndarray [1; 0]]] = Z.to_nat (number_groups self) /\
  forall grp, In grp [[ndarray [1; 1]; ndarray [1; 0]]] ->
    length grp = Nat.min (length (num_players self))
                         (length (num_strats (pm self))) /\
    forall t vec, nth_error grp t = Some vec ->
      vkind vec = NdArray /\
      nth_error (num_strats (pm self)) t = Some (length (vdata vec)).
Proof.
  intro self.
  assert (E : initial_state det_uniform det_multinomial det_dirichlet self None
                true 0 tt
              = Ok ([[ndarray [1; 1]; ndarray [1; 0]]], tt))
    by (vm_compute; reflexivity).
  split; [exact E|].
  exact (drawn_state_shape unit det_uniform det_multinomial det_dirichlet
           det_uniform_length det_multinomial_length det_dirichlet_length
           self true 0%Z tt tt _ E).
Defined.
